(** * moirai: reference handles, ownership registry and trampoline casts

    A shallow embedding of the moirai header that defines the templates
    [known_conversions] and [as_type], the classes [cast_ptr_provider]
    and [reference_handle<T>], and the marshalling helpers
    [checked_downcast], [checked_reference_handle], [as_raw_pointers] and
    [as_raw_pointer], together with the properties of the specification
    that concern them.

    Conventions of the embedding:
    - a pointer is the address it holds, an integer, and [nullptr] is [0];
      addresses have 64 bits, and a cast that displaces a pointer wraps
      at [2 ^ 64];
    - a C++ type is a value of [cpp_type]; template parameters become
      ordinary arguments of that type;
    - a thrown exception is the [Throw] branch of [result];
    - the process-wide state (control blocks of [std::shared_ptr], the
      singleton [reference_handle_map], the log of destructor runs) is a
      value of [world], passed explicitly. *)

From stdpp Require Import base decidable numbers option list strings gmap fin_maps.

Local Open Scope Z_scope.

(* ===================================================================== *)
(** * Types, type identities and pointers *)
(* ===================================================================== *)

(** The C++ types that occur as template arguments.  [user_class] stands
    for the classes of the client library (animal, dog, ...);
    [opaque_ptr_provider_class] and [cast_ptr_provider_class] are the two
    capability classes and [reference_handle_of T] is the instance
    [reference_handle<T>]. *)
Inductive cpp_type : Set :=
  | user_class (id : N)
  | opaque_ptr_provider_class
  | cast_ptr_provider_class
  | reference_handle_of (T : cpp_type).

#[global] Instance cpp_type_eq_dec : EqDecision cpp_type.
Proof. solve_decision. Defined.

(** [typeinfo] is [std::type_index]: a token compared with [==].  Two
    tokens are equal exactly when they stand for the same type. *)
Definition typeinfo : Set := cpp_type.

Definition typeid (T : cpp_type) : typeinfo := T.

Definition ptr : Set := Z.

Definition nullptr : ptr := 0.

Definition is_null (p : ptr) : bool := bool_decide (p = nullptr).

(** Pointers have 64 bits: address arithmetic wraps at [2 ^ 64]. *)
Definition pointer_modulus : Z := 2 ^ 64.

Definition wrap_pointer (z : Z) : ptr := z mod pointer_modulus.

(** Exceptions thrown by the code, and the outcome of a call that may
    throw. *)
Inductive exception : Set :=
  | invalid_argument (what : string)
  | bad_array_new_length.

Inductive result (A : Type) : Type :=
  | Ok (a : A)
  | Throw (e : exception).

Arguments Ok {A} a.
Arguments Throw {A} e.

(** [contains needle hay]: [needle] occurs in [hay] as a contiguous
    substring. *)
Definition contains (needle hay : string) : Prop :=
  exists before after : string, hay = before +:+ needle +:+ after.

(* ===================================================================== *)
(** * Shared ownership: [std::shared_ptr] *)
(* ===================================================================== *)

(** The control block of a group of [std::shared_ptr]: the managed
    address, the type whose destructor the deleter runs, and the number
    of [shared_ptr] instances in the group. *)
Record control_block : Set := ControlBlock {
  managed : ptr;
  deleter : cpp_type;
  use_count : Z
}.

(** A [shared_ptr] value: its control block and the pointer [get()]
    returns. *)
Record shared_ptr : Set := SharedPtr {
  ctrl : positive;
  stored : ptr
}.

(** A slot of the registry: the registry's own [shared_ptr] and the
    share, the number of handles obtained for the address and not yet
    released. *)
Record registry_entry : Set := RegistryEntry {
  block : shared_ptr;
  share : Z
}.

(** The process state: live control blocks, the map of the singleton
    [reference_handle_map::instance()], and the destructor runs so far,
    oldest first, as pairs (type whose destructor ran, address). *)
Record world : Type := World {
  blocks : gmap positive control_block;
  handle_map : gmap Z registry_entry;
  destroyed : list (cpp_type * ptr)
}.

Definition set_blocks (f : gmap positive control_block -> gmap positive control_block)
    (w : world) : world :=
  World (f (blocks w)) (handle_map w) (destroyed w).

Definition set_handle_map (f : gmap Z registry_entry -> gmap Z registry_entry)
    (w : world) : world :=
  World (blocks w) (f (handle_map w)) (destroyed w).

(** The state of a process that has not touched the library yet. *)
Definition initial_world : world := World ∅ ∅ [].

(** [std::shared_ptr<T> sp(p)]: a new control block that owns [p] and
    deletes it as a [T]. *)
Definition sp_new (T : cpp_type) (p : ptr) (w : world) : shared_ptr * world :=
  let b := fresh (dom (blocks w)) in
  (SharedPtr b p, set_blocks (insert b (ControlBlock p T 1)) w).

(** Copying a [shared_ptr] (copy construction, and the casts
    [static_pointer_cast], which make a new instance in the same group). *)
Definition sp_copy (sp : shared_ptr) (w : world) : world :=
  set_blocks
    (alter (fun cb => ControlBlock (managed cb) (deleter cb) (use_count cb + 1)) (ctrl sp))
    w.

(** Destroying a [shared_ptr] instance: the last one of the group runs
    the deleter, that is the destructor of the type bound at creation. *)
Definition sp_drop (sp : shared_ptr) (w : world) : world :=
  match blocks w !! ctrl sp with
  | None => w
  | Some cb =>
      if decide (use_count cb <= 1)
      then World (delete (ctrl sp) (blocks w)) (handle_map w)
                 (destroyed w ++ [(deleter cb, managed cb)])
      else set_blocks
             (insert (ctrl sp) (ControlBlock (managed cb) (deleter cb) (use_count cb - 1)))
             w
  end.

(** [sp.use_count()]. *)
Definition sp_use_count (sp : shared_ptr) (w : world) : Z :=
  match blocks w !! ctrl sp with
  | Some cb => use_count cb
  | None => 0
  end.

(* ===================================================================== *)
(** * The ownership registry [reference_handle_map] *)
(* ===================================================================== *)

Module reference_handle_map.

(** Modelled from the spec: the class [reference_handle_map], declared in
    [reference_handle.h], whose definition is not part of the sources
    embedded here.  Section 4.4: [get(address, factory)] returns the
    existing ownership block for [address] if present (incrementing its
    share), otherwise invokes [factory] to build one and inserts it.  The
    value returned is a [shared_ptr] of its own, next to the one the
    registry keeps (its internal bookkeeping reference), so in both cases
    the group gains one instance. *)
Definition get (p : ptr) (ptr_factory : ptr -> world -> shared_ptr * world)
    (w : world) : shared_ptr * world :=
  match handle_map w !! p with
  | Some e =>
      (block e,
       sp_copy (block e)
         (set_handle_map (insert p (RegistryEntry (block e) (share e + 1))) w))
  | None =>
      let '(sp, w1) := ptr_factory p w in
      (sp, sp_copy sp (set_handle_map (insert p (RegistryEntry sp 1)) w1))
  end.

(** Modelled from the spec: [release] of [reference_handle_map], missing
    for the same reason.  Section 4.4: [release(address)] decrements the
    block's share; when it reaches zero, erases the entry and allows
    destruction to proceed.  Erasing the entry destroys the registry's
    own [shared_ptr].  An address without entry is left alone. *)
Definition release (p : ptr) (w : world) : world :=
  match handle_map w !! p with
  | None => w
  | Some e =>
      if decide (share e - 1 <= 0)
      then sp_drop (block e) (set_handle_map (delete p) w)
      else set_handle_map (insert p (RegistryEntry (block e) (share e - 1))) w
  end.

End reference_handle_map.

(* ===================================================================== *)
(** * [reference_handle<T>] *)
(* ===================================================================== *)

(** An object of class [reference_handle<T>]: [element_type] is [T] and
    [sharedPtr] the member of that name. *)
Record reference_handle : Set := ReferenceHandle {
  element_type : cpp_type;
  sharedPtr : shared_ptr
}.

(** [reference_handle<T>::create_shared_ptr]: a [shared_ptr<T>] is built
    first, so that the deleter is the one of [T], then cast to
    [shared_ptr<void>]; the local [ptr] dies on return. *)
Definition create_shared_ptr (T : cpp_type) (p : ptr) (w : world) : shared_ptr * world :=
  let '(ptr0, w1) := sp_new T p w in
  let w2 := sp_copy ptr0 w1 in
  (ptr0, sp_drop ptr0 w2).

(** [reference_handle<T>::find_shared_ptr]: the temporary returned by the
    registry is cast with [static_pointer_cast<T>] and then destroyed. *)
Definition find_shared_ptr (T : cpp_type) (p : ptr) (w : world) : shared_ptr * world :=
  let '(tmp, w1) := reference_handle_map.get p (create_shared_ptr T) w in
  let w2 := sp_copy tmp w1 in
  (tmp, sp_drop tmp w2).

(** [reference_handle(const T& object)]: [storage] is the address of the
    copy made by [new T(object)]. *)
Definition reference_handle_from_value (T : cpp_type) (storage : ptr) (w : world)
    : reference_handle * world :=
  let '(sp, w1) := find_shared_ptr T storage w in
  (ReferenceHandle T sp, w1).

(** [reference_handle(T* p)]. *)
Definition reference_handle_from_ptr (T : cpp_type) (p : ptr) (w : world)
    : result (reference_handle * world) :=
  if is_null p then Throw (invalid_argument "Pointer must not be nullptr")
  else
    let '(sp, w1) := find_shared_ptr T p w in
    Ok (ReferenceHandle T sp, w1).

(** [reference_handle(const reference_handle<T>& ptr)]. *)
Definition reference_handle_copy (other : reference_handle) (w : world)
    : reference_handle * world :=
  let '(sp, w1) := find_shared_ptr (element_type other) (stored (sharedPtr other)) w in
  (ReferenceHandle (element_type other) sp, w1).

(** [get_ptr()] and [get_void_ptr()]. *)
Definition get_ptr (h : reference_handle) : ptr := stored (sharedPtr h).

Definition handle_get_void_ptr (h : reference_handle) : ptr := get_ptr h.

(** [~reference_handle()]: the body releases the address at the
    registry, then the member [sharedPtr] is destroyed. *)
Definition reference_handle_destroy (h : reference_handle) (w : world) : world :=
  sp_drop (sharedPtr h) (reference_handle_map.release (get_ptr h) w).

(** [new_reference_handle()]. *)
Definition new_reference_handle (h : reference_handle) (w : world)
    : result (reference_handle * world) :=
  reference_handle_from_ptr (element_type h) (get_ptr h) w.

(** [count()]. *)
Definition count (h : reference_handle) (w : world) : Z :=
  sp_use_count (sharedPtr h) w - 1.

(* ===================================================================== *)
(** * Trampoline casts *)
(* ===================================================================== *)

Section Casts.

(** What the translation unit fixes at compile time:
    - [candidate_list U] is [Some [R1; ..; Rn]] when the client program
      specialises [known_conversions<U>] with
      [as_type<U, R1, .., Rn>(p, tinfo)], and [None] when only the primary
      template applies;
    - [base_offset R T] is the displacement that [static_cast<T*>] adds to
      a non-null [R*] (the position of the [T] subobject in [R]). *)
Variable candidate_list : cpp_type -> option (list cpp_type).
Variable base_offset : cpp_type -> cpp_type -> Z.

(** [static_cast<T*>(p)] for [p : void*]: the address is unchanged. *)
Definition static_cast_void (T : cpp_type) (p : ptr) : ptr := p.

(** [static_cast<T*>(q)] for [q : R*]: the identity when [R] is [T],
    otherwise null stays null and any other address is displaced to the
    [T] subobject, in 64-bit address arithmetic. *)
Definition static_cast_class (R T : cpp_type) (q : ptr) : ptr :=
  if decide (R = T) then q
  else if is_null q then nullptr
  else wrap_pointer (q + base_offset R T).

(** Primary template [known_conversions<U>::dyn_cast]. *)
Definition default_dyn_cast (U : cpp_type) (p : ptr) (tinfo : typeinfo) : ptr :=
  if decide (typeid U = tinfo) then static_cast_void U p
  else nullptr.

(** [as_type<T, R, RArgs...>(p, tinfo)].  The variadic overload takes the
    head candidate [R]; with no candidate left the call is
    [as_type<T>(p, tinfo)], the terminal overload, which compares with
    [typeid(T)] itself. *)
Fixpoint as_type (T : cpp_type) (Rs : list cpp_type) (p : ptr) (tinfo : typeinfo) : ptr :=
  match Rs with
  | [] =>
      if decide (tinfo = typeid T) then static_cast_void T p
      else nullptr
  | R :: RArgs =>
      if decide (tinfo = typeid R)
      then static_cast_class R T (static_cast_void R p)
      else as_type T RArgs p tinfo
  end.

(** [known_conversions<U>::dyn_cast(p, tinfo)], through the
    specialisation for [U] when the program declares one. *)
Definition dyn_cast (U : cpp_type) (p : ptr) (tinfo : typeinfo) : ptr :=
  match candidate_list U with
  | Some Rs => as_type U Rs p tinfo
  | None => default_dyn_cast U p tinfo
  end.

End Casts.

(* ===================================================================== *)
(** * Opaque pointer providers *)
(* ===================================================================== *)

(** The objects a [opaque_ptr_provider*] can point to, by dynamic class:
    a [reference_handle<T>], the only concrete provider of the library;
    an object of a client class [user_class cls] derived from
    [cast_ptr_provider]; an object of a client class derived from
    [opaque_ptr_provider] alone.  The client objects carry the type
    identity passed to the base constructor and what their
    [get_void_ptr()] returns.  A null [opaque_ptr_provider*] is [None] in
    [option provider]. *)
Inductive provider : Set :=
  | handle_object (h : reference_handle)
  | cast_object (cls : N) (tinfo : typeinfo) (vp : ptr)
  | opaque_object (cls : N) (tinfo : typeinfo) (vp : ptr).

(** The member [wrapped_type_info] of the base class.  Every constructor
    of [reference_handle<T>] initialises it with [typeid(T)]. *)
Definition wrapped_type_info (prov : provider) : typeinfo :=
  match prov with
  | handle_object h => typeid (element_type h)
  | cast_object _ tinfo _ => tinfo
  | opaque_object _ tinfo _ => tinfo
  end.

(** The virtual [get_void_ptr()]. *)
Definition get_void_ptr (prov : provider) : ptr :=
  match prov with
  | handle_object h => handle_get_void_ptr h
  | cast_object _ _ vp => vp
  | opaque_object _ _ vp => vp
  end.

(** The class of an object and its base classes. *)
Definition class_of (prov : provider) : cpp_type :=
  match prov with
  | handle_object h => reference_handle_of (element_type h)
  | cast_object cls _ _ => user_class cls
  | opaque_object cls _ _ => user_class cls
  end.

Definition bases_of (prov : provider) : list cpp_type :=
  match prov with
  | handle_object _ => [cast_ptr_provider_class; opaque_ptr_provider_class]
  | cast_object _ _ _ => [cast_ptr_provider_class; opaque_ptr_provider_class]
  | opaque_object _ _ _ => [opaque_ptr_provider_class]
  end.

(** [dynamic_cast<X*>(sharedPtr)] on a non-null [sharedPtr]: the object
    itself when its class is [X] or derives from [X], null otherwise. *)
Definition dynamic_cast (X : cpp_type) (prov : provider) : option provider :=
  if bool_decide (X ∈ class_of prov :: bases_of prov) then Some prov else None.

(** [dynamic_cast<reference_handle<T>*>(sharedPtr)], with the result
    seen at its static type. *)
Definition dynamic_cast_handle (T : cpp_type) (prov : provider) : option reference_handle :=
  match dynamic_cast (reference_handle_of T) prov, prov with
  | Some _, handle_object h => Some h
  | _, _ => None
  end.

Section Marshalling.

Variable type_name : cpp_type -> string.
Variable candidate_list : cpp_type -> option (list cpp_type).
Variable base_offset : cpp_type -> cpp_type -> Z.

(** Modelled from the spec: [wrapped_type_name()] belongs to
    [opaque_ptr_provider], declared in [reference_handle.h].  Section 3: a
    type identity is a token plus a human-readable name identifying the
    type the object was registered with; the accessor returns that name,
    [type_name] standing for [std::type_info::name()]. *)
Definition wrapped_type_name (prov : provider) : string :=
  type_name (wrapped_type_info prov).

(** [cast_ptr_provider::dynamic_cast_to<U>()]. *)
Definition dynamic_cast_to (U : cpp_type) (cpp : provider) : ptr :=
  dyn_cast candidate_list base_offset U (get_void_ptr cpp) (wrapped_type_info cpp).

(** [cast_ptr_provider::can_cast_to<U>()]. *)
Definition can_cast_to (U : cpp_type) (cpp : provider) : bool :=
  negb (is_null (dynamic_cast_to U cpp)).

(** [checked_downcast<T>(sharedPtr)]. *)
Definition checked_downcast (T : cpp_type) (sharedPtr : option provider) : result provider :=
  match sharedPtr with
  | None => Throw (invalid_argument "The pointer to a reference handle is nullptr")
  | Some prov =>
      match dynamic_cast T prov with
      | Some result => Ok result
      | None =>
          let expected := type_name (typeid T) in
          let actual := wrapped_type_name prov in
          let errorMsg :=
            (("Expected type " +:+ expected)
               +:+ ", but got an opaque pointer to a type ") +:+ actual in
          Throw (invalid_argument errorMsg)
      end
  end.

(** [checked_reference_handle<T>(sharedPtr)]. *)
Definition checked_reference_handle (T : cpp_type) (sharedPtr : option provider)
    : result provider :=
  checked_downcast (reference_handle_of T) sharedPtr.

(** The loop of [as_raw_pointers]: [remaining] iterations from index [i]
    on.  [None] when [sharedPtrs[i]] is read past the end of the array or
    is a null pointer, where the call [->get_void_ptr()] has no defined
    behaviour. *)
Fixpoint as_raw_pointers_loop (T : cpp_type) (sharedPtrs : list (option provider))
    (i remaining : nat) (result : list ptr) : option (list ptr) :=
  match remaining with
  | O => Some result
  | S remaining' =>
      match sharedPtrs !! i with
      | Some (Some prov) =>
          as_raw_pointers_loop T sharedPtrs (S i) remaining'
            (<[i := static_cast_void T (get_void_ptr prov)]> result)
      | _ => None
      end
  end.

(** [as_raw_pointers<T>(sharedPtrs, n)].  [new T*[n]] throws for a
    negative [n]; the new array is filled from index [0] to [n - 1]. *)
Definition as_raw_pointers (T : cpp_type) (sharedPtrs : list (option provider)) (n : Z)
    : option (result (list ptr)) :=
  if decide (n < 0) then Some (Throw bad_array_new_length)
  else
    Ok <$> as_raw_pointers_loop T sharedPtrs 0 (Z.to_nat n) (replicate (Z.to_nat n) nullptr).

(** [as_raw_pointer<T>(sharedPtr)]. *)
Definition as_raw_pointer (T : cpp_type) (sharedPtr : option provider) : result ptr :=
  match sharedPtr with
  | None => Throw (invalid_argument "Pointer is nullptr - not accepted by the API")
  | Some prov =>
      match dynamic_cast_handle T prov with
      | Some sp => Ok (get_ptr sp)
      | None =>
          match dynamic_cast cast_ptr_provider_class prov with
          | None =>
              Throw (invalid_argument
                "Opaque pointer wrapper is not a cast_ptr_provider - not accepted by the API")
          | Some cpp =>
              let result := dynamic_cast_to T cpp in
              if is_null result then
                let expected := type_name (typeid T) in
                let actual := wrapped_type_name prov in
                let errorMsg :=
                  (("Cannot cast pointer to " +:+ actual) +:+ " to a pointer to ")
                    +:+ expected in
                Throw (invalid_argument errorMsg)
              else Ok result
          end
      end
  end.

End Marshalling.

(** [conversion_declared T tinfo]: the program declares a conversion to
    [T] for objects recorded as [tinfo], either as a candidate of the
    specialisation for [T] or as [T] itself, which the terminal
    [as_type<T>] and the primary template both accept. *)
Definition conversion_declared (candidate_list : cpp_type -> option (list cpp_type))
    (T : cpp_type) (tinfo : typeinfo) : Prop :=
  tinfo ∈ typeid T :: default [] (candidate_list T).

(** [held w b p T n s]: the state [w] extended with a control block [b]
    that owns the object of type [T] at [p] with [n] instances, and with
    the registry entry of [p], which keeps one of these instances and
    counts [s] shares. *)
Definition held (w : world) (b : positive) (p : ptr) (T : cpp_type) (n s : Z) : world :=
  World (<[b := ControlBlock p T n]> (blocks w))
        (<[p := RegistryEntry (SharedPtr b p) s]> (handle_map w))
        (destroyed w).

(* ===================================================================== *)
(** * States the library reaches *)
(* ===================================================================== *)

(** [registry_ok w]: the registry and the control blocks agree.  Every
    entry is filed under the address its [shared_ptr] stores, counts at
    least one share, and its control block manages that address with one
    instance per share plus the registry's own; every control block is
    the block of the entry of the address it manages. *)
Definition registry_ok (w : world) : Prop :=
  (forall (p : ptr) (e : registry_entry),
     handle_map w !! p = Some e ->
     stored (block e) = p
     /\ 1 <= share e
     /\ exists T : cpp_type,
          blocks w !! ctrl (block e) = Some (ControlBlock p T (share e + 1)))
  /\ (forall (b : positive) (cb : control_block),
        blocks w !! b = Some cb ->
        exists e : registry_entry,
          handle_map w !! managed cb = Some e /\ ctrl (block e) = b).

(** [live h w]: the handle [h] holds the block that the registry files
    under its address; this is so from the construction of [h] until the
    last handle on the address is destroyed. *)
Definition live (h : reference_handle) (w : world) : Prop :=
  exists e : registry_entry,
    handle_map w !! get_ptr h = Some e /\ block e = sharedPtr h.

(* ===================================================================== *)
(** * Scenarios on handles *)
(* ===================================================================== *)

(** The ways to obtain a second handle on the object of a handle [h1]:
    adopting the raw pointer again, copy construction, and
    [new_reference_handle()]. *)
Inductive creation_path : Set :=
  | adopt_pointer
  | copy_handle
  | alias_handle.

Definition second_handle (path : creation_path) (h1 : reference_handle) (w : world)
    : result (reference_handle * world) :=
  match path with
  | adopt_pointer => reference_handle_from_ptr (element_type h1) (get_ptr h1) w
  | copy_handle => Ok (reference_handle_copy h1 w)
  | alias_handle => new_reference_handle h1 w
  end.

(** The first handle on the object at [p]: by copying a value into new
    storage at [p], or by adopting the raw pointer [p]. *)
Definition first_handle (from_value : bool) (T : cpp_type) (p : ptr) (w : world)
    : result (reference_handle * world) :=
  if from_value then Ok (reference_handle_from_value T p w)
  else reference_handle_from_ptr T p w.

(** Two handles on the address [p], then both destroyed, the first one
    first when [first_first] holds.  The result is the state after the
    first destruction and the final state. *)
Definition two_handles_scenario (from_value : bool) (path : creation_path)
    (first_first : bool) (T : cpp_type) (p : ptr) (w : world) : result (world * world) :=
  match first_handle from_value T p w with
  | Throw e => Throw e
  | Ok (h1, w1) =>
      match second_handle path h1 w1 with
      | Throw e => Throw e
      | Ok (h2, w2) =>
          let w3 := reference_handle_destroy (if first_first then h1 else h2) w2 in
          let w4 := reference_handle_destroy (if first_first then h2 else h1) w3 in
          Ok (w3, w4)
      end
  end.

(** A first handle [h1] on [p], then [h2 = h1.new_reference_handle()],
    then [h2] destroyed.  The result lists [h1.count()] before, [h1.count()]
    and [h2.count()] while both live, and [h1.count()] at the end. *)
Definition alias_scenario (from_value : bool) (T : cpp_type) (p : ptr) (w : world)
    : result (Z * Z * Z * Z) :=
  match first_handle from_value T p w with
  | Throw e => Throw e
  | Ok (h1, w1) =>
      match new_reference_handle h1 w1 with
      | Throw e => Throw e
      | Ok (h2, w2) =>
          let w3 := reference_handle_destroy h2 w2 in
          Ok (count h1 w1, count h1 w2, count h2 w2, count h1 w3)
      end
  end.

(** Further handles obtained one after the other from the handle [g],
    each by the path given. *)
Fixpoint more_handles (paths : list creation_path) (g : reference_handle) (w : world)
    : result (list reference_handle * world) :=
  match paths with
  | [] => Ok ([], w)
  | path :: paths' =>
      match second_handle path g w with
      | Throw e => Throw e
      | Ok (h, w1) =>
          match more_handles paths' g w1 with
          | Throw e => Throw e
          | Ok (hs, w2) => Ok (h :: hs, w2)
          end
      end
  end.

(** The handles of a list destroyed one after the other. *)
Definition destroy_handles (hs : list reference_handle) (w : world) : world :=
  foldl (fun w' h => reference_handle_destroy h w') w hs.

(* ===================================================================== *)
(** * A client program: animals *)
(* ===================================================================== *)

(** A library with a class [animal] and two classes [dog] and [cat]
    derived from it, which specialises [known_conversions<animal>] with
    [as_type<animal, dog, cat>]. *)
Definition animal : cpp_type := user_class 0.
Definition dog : cpp_type := user_class 1.
Definition cat : cpp_type := user_class 2.

Fixpoint zoo_type_name (T : cpp_type) : string :=
  match T with
  | user_class 0 => "animal"
  | user_class 1 => "dog"
  | user_class 2 => "cat"
  | user_class _ => "stranger"
  | opaque_ptr_provider_class => "opaque_ptr_provider"
  | cast_ptr_provider_class => "cast_ptr_provider"
  | reference_handle_of T' => ("reference_handle<" +:+ zoo_type_name T') +:+ ">"
  end.

Definition zoo_candidate_list (U : cpp_type) : option (list cpp_type) :=
  if decide (U = animal) then Some [dog; cat] else None.

(** [cat] has a second base before [animal]: its [animal] subobject
    starts 16 bytes into the object. *)
Definition zoo_base_offset (R T : cpp_type) : Z :=
  if decide (R = cat /\ T = animal) then 16 else 0.

Definition a_dog_handle : reference_handle := ReferenceHandle dog (SharedPtr 1 4096).
Definition a_cat_handle : reference_handle := ReferenceHandle cat (SharedPtr 2 8192).

(** A provider of the client itself, recorded as [animal], and one that
    exposes no object. *)
Definition an_animal_provider : provider := cast_object 7 animal 12288.
Definition an_empty_provider : provider := cast_object 7 dog nullptr.

(** The state after [reference_handle<dog>] has adopted the address 4096
    in a fresh process. *)
Definition one_dog_world : world := held initial_world 1 4096 dog 2 1.

(* ===================================================================== *)
(** * Properties of the trampoline casts *)
(* ===================================================================== *)

Lemma string_append_assoc (a b c : string) : (a +:+ b) +:+ c = a +:+ (b +:+ c).
Proof.
  induction a as [|ch a IH]; [reflexivity|].
  change (String ch ((a +:+ b) +:+ c) = String ch (a +:+ (b +:+ c))).
  now rewrite IH.
Qed.

Lemma string_append_empty_r (a : string) : a +:+ EmptyString = a.
Proof.
  induction a as [|ch a IH]; [reflexivity|].
  change (String ch (a +:+ EmptyString) = String ch a).
  now rewrite IH.
Qed.

Lemma contains_second (a s b c : string) : contains s (((a +:+ s) +:+ b) +:+ c).
Proof. exists a, (b +:+ c). now rewrite !string_append_assoc. Qed.

Lemma contains_last (a s : string) : contains s (a +:+ s).
Proof. exists a, EmptyString. now rewrite string_append_empty_r. Qed.

Lemma is_null_false (p : ptr) : is_null p = false <-> p <> nullptr.
Proof. unfold is_null. apply bool_decide_eq_false. Qed.

Section CastProperties.

Variable candidate_list : cpp_type -> option (list cpp_type).
Variable base_offset : cpp_type -> cpp_type -> Z.

(** Candidates that do not match are passed over. *)
Lemma as_type_skip (T : cpp_type) (skipped Rs : list cpp_type) (p : ptr) (tinfo : typeinfo) :
  Forall (fun S => tinfo <> typeid S) skipped ->
  as_type base_offset T (skipped ++ Rs) p tinfo = as_type base_offset T Rs p tinfo.
Proof.
  induction 1 as [|S skipped Hne _ IH]; simpl; [reflexivity|].
  destruct (decide (tinfo = typeid S)); [contradiction | exact IH].
Qed.

(** With no candidate equal to the recorded type, and the target itself
    different from it, the walk ends on null. *)
Lemma as_type_no_match (T : cpp_type) (Rs : list cpp_type) (p : ptr) (tinfo : typeinfo) :
  tinfo ∉ typeid T :: Rs ->
  as_type base_offset T Rs p tinfo = nullptr.
Proof.
  intros Hnot. induction Rs as [|R Rs IH]; simpl.
  - destruct (decide (tinfo = typeid T)) as [->|]; [|reflexivity].
    exfalso. apply Hnot. left.
  - destruct (decide (tinfo = typeid R)) as [->|Hne].
    + exfalso. apply Hnot. right. left.
    + apply IH. intros Hin. apply Hnot.
      apply elem_of_cons in Hin as [->|Hin]; [left | right; right; exact Hin].
Qed.

Lemma default_dyn_cast_value (U : cpp_type) (p : ptr) (tinfo : typeinfo) :
  default_dyn_cast U p tinfo = if decide (tinfo = typeid U) then p else nullptr.
Proof.
  unfold default_dyn_cast, static_cast_void, typeid.
  repeat case_decide; congruence.
Qed.

(** A recorded type without declared conversion to [U] casts to null,
    with or without specialisation for [U]. *)
Lemma dyn_cast_not_declared (U : cpp_type) (p : ptr) (tinfo : typeinfo) :
  ~ conversion_declared candidate_list U tinfo ->
  dyn_cast candidate_list base_offset U p tinfo = nullptr.
Proof.
  unfold conversion_declared, dyn_cast. intros Hnot.
  destruct (candidate_list U) as [Rs|]; simpl in Hnot.
  - now apply as_type_no_match.
  - rewrite default_dyn_cast_value.
    destruct (decide (tinfo = typeid U)) as [->|]; [|reflexivity].
    exfalso. apply Hnot. left.
Qed.

(** Without specialisation for [U], the cast yields the stored pointer
    for the identity of [U] and null for any other, on every provider. *)
Lemma dynamic_cast_to_default_value (U : cpp_type) (cpp : provider) :
  candidate_list U = None ->
  dynamic_cast_to candidate_list base_offset U cpp
  = if decide (wrapped_type_info cpp = typeid U) then get_void_ptr cpp else nullptr.
Proof.
  intros Hnone. unfold dynamic_cast_to, dyn_cast. rewrite Hnone.
  apply default_dyn_cast_value.
Qed.

(** C3, as the code has it.  For a target type [U] without
    specialisation of [known_conversions] (no declared candidate list),
    and a provider whose [get_void_ptr()] is not null,
    [dynamic_cast_to<U>()] returns a non-null pointer if and only if the
    recorded type identity is the one of [U].  The stored pointer is
    never reinterpreted regardless of the identity: a different identity
    gives null, the same identity gives the stored pointer.  The proviso
    is needed: a null stored pointer casts to null under every
    identity, the one of [U] included. *)
Theorem dynamic_cast_to_default_exact (U : cpp_type) (cpp : provider) :
  candidate_list U = None ->
  get_void_ptr cpp <> nullptr ->
  (dynamic_cast_to candidate_list base_offset U cpp <> nullptr
     <-> wrapped_type_info cpp = typeid U)
  /\ (wrapped_type_info cpp <> typeid U ->
        dynamic_cast_to candidate_list base_offset U cpp = nullptr)
  /\ (wrapped_type_info cpp = typeid U ->
        dynamic_cast_to candidate_list base_offset U cpp = get_void_ptr cpp).
Proof.
  intros Hnone Hobj. rewrite dynamic_cast_to_default_value by assumption.
  destruct (decide (wrapped_type_info cpp = typeid U)) as [E|E].
  - split; [split; [intros _; exact E | intros _; exact Hobj] |].
    split; [intros Hne; contradiction | reflexivity].
  - split; [split; [intros Hne; now contradict Hne | intros E'; contradiction] |].
    split; [reflexivity | intros E'; contradiction].
Qed.

(** C6. For a target type [T] with declared candidate list
    [skipped ++ R :: rest], where [R] is the first candidate equal to the
    recorded identity: the trampoline cast passes over the candidates
    before [R] one after the other, from left to right, and at [R]
    returns the stored pointer cast to [R*] and from there to [T*]. *)
Theorem as_type_left_to_right (T R : cpp_type) (skipped rest : list cpp_type)
    (cpp : provider) :
  candidate_list T = Some (skipped ++ R :: rest) ->
  wrapped_type_info cpp = typeid R ->
  Forall (fun S => wrapped_type_info cpp <> typeid S) skipped ->
  (forall (S : cpp_type) (later : list cpp_type) (p : ptr),
      wrapped_type_info cpp <> typeid S ->
      as_type base_offset T (S :: later) p (wrapped_type_info cpp)
      = as_type base_offset T later p (wrapped_type_info cpp))
  /\ as_type base_offset T (skipped ++ R :: rest) (get_void_ptr cpp) (wrapped_type_info cpp)
     = as_type base_offset T (R :: rest) (get_void_ptr cpp) (wrapped_type_info cpp)
  /\ dynamic_cast_to candidate_list base_offset T cpp
     = static_cast_class base_offset R T (static_cast_void R (get_void_ptr cpp)).
Proof.
  intros Hlist Hmatch Hskip. split; [|split].
  - intros S later p Hne. simpl.
    destruct (decide (wrapped_type_info cpp = typeid S)); [contradiction | reflexivity].
  - now apply as_type_skip.
  - unfold dynamic_cast_to, dyn_cast. rewrite Hlist.
    rewrite as_type_skip by assumption. simpl.
    destruct (decide (wrapped_type_info cpp = typeid R)); [reflexivity | contradiction].
Qed.

(** C10. For every provider and every target type [U], [can_cast_to<U>()]
    is true if and only if [dynamic_cast_to<U>()] is not null. *)
Theorem can_cast_to_agrees (U : cpp_type) (cpp : provider) :
  can_cast_to candidate_list base_offset U cpp = true
  <-> dynamic_cast_to candidate_list base_offset U cpp <> nullptr.
Proof.
  unfold can_cast_to. rewrite negb_true_iff. apply is_null_false.
Qed.

End CastProperties.

(* ===================================================================== *)
(** * Properties of the marshalling helpers *)
(* ===================================================================== *)

Lemma dynamic_cast_Some (X : cpp_type) (prov : provider) :
  X ∈ class_of prov :: bases_of prov -> dynamic_cast X prov = Some prov.
Proof. intros Hin. unfold dynamic_cast. now rewrite bool_decide_eq_true_2. Qed.

Lemma dynamic_cast_None (X : cpp_type) (prov : provider) :
  X ∉ class_of prov :: bases_of prov -> dynamic_cast X prov = None.
Proof. intros Hin. unfold dynamic_cast. now rewrite bool_decide_eq_false_2. Qed.

(** No base class of a provider is an instance of [reference_handle]. *)
Lemma handle_class_not_a_base (T : cpp_type) (prov : provider) :
  reference_handle_of T ∉ bases_of prov.
Proof.
  destruct prov; simpl; intros Hin;
    repeat (apply elem_of_cons in Hin as [Hin|Hin]; [discriminate|]);
    now apply elem_of_nil in Hin.
Qed.

Lemma dynamic_cast_handle_other (T : cpp_type) (prov : provider) :
  class_of prov <> reference_handle_of T -> dynamic_cast_handle T prov = None.
Proof.
  intros Hne. unfold dynamic_cast_handle. rewrite dynamic_cast_None; [reflexivity|].
  intros Hin. apply elem_of_cons in Hin as [Hin|Hin]; [congruence|].
  now apply handle_class_not_a_base in Hin.
Qed.

Lemma dynamic_cast_handle_exact (h : reference_handle) :
  dynamic_cast_handle (element_type h) (handle_object h) = Some h.
Proof.
  unfold dynamic_cast_handle. rewrite dynamic_cast_Some; [reflexivity|]. simpl. left.
Qed.

(** A handle of [U] is of class [reference_handle<T>] only for [T = U],
    and that class is neither of the capability classes. *)
Lemma handle_is_a (X : cpp_type) (h : reference_handle) :
  X ∈ class_of (handle_object h) :: bases_of (handle_object h)
  <-> X = reference_handle_of (element_type h)
      \/ X = cast_ptr_provider_class \/ X = opaque_ptr_provider_class.
Proof. simpl. rewrite !elem_of_cons, elem_of_nil. tauto. Qed.

(** The loop of [as_raw_pointers] on an array without null entry: from
    index [i] on, the entries of [result] are overwritten with the
    untyped pointers of the providers. *)
Lemma as_raw_pointers_loop_fills (T : cpp_type) (providers : list provider)
    (remaining i : nat) (result : list ptr) :
  (i + remaining)%nat = length providers ->
  length result = length providers ->
  as_raw_pointers_loop T (Some <$> providers) i remaining result
  = Some (take i result ++ (get_void_ptr <$> drop i providers)).
Proof.
  revert i result. induction remaining as [|remaining IH]; intros i result Hi Hlen; simpl.
  - rewrite Nat.add_0_r in Hi. subst i. rewrite drop_all, <- Hlen, firstn_all.
    now rewrite app_nil_r.
  - destruct (lookup_lt_is_Some_2 providers i) as [prov Hprov]; [lia|].
    rewrite list_lookup_fmap, Hprov. simpl.
    rewrite IH; [|lia|now rewrite length_insert].
    f_equal.
    rewrite (take_S_r _ i (static_cast_void T (get_void_ptr prov)))
      by (apply list_lookup_insert_eq; lia).
    rewrite take_insert_ge by lia.
    rewrite (drop_S providers prov i Hprov). simpl.
    now rewrite <- app_assoc.
Qed.

Section MarshallingProperties.

Variable type_name : cpp_type -> string.
Variable candidate_list : cpp_type -> option (list cpp_type).
Variable base_offset : cpp_type -> cpp_type -> Z.

(** C4. For a non-null provider that is not exactly a
    [reference_handle<T>], [as_raw_pointer<T>] requires the cast
    capability: a provider that is no [cast_ptr_provider] is refused with
    an invalid-argument fault.  On a [cast_ptr_provider] it performs the
    trampoline cast and returns its result when that is not null.  When
    the recorded type has no declared conversion to [T], the call fails
    with an invalid-argument fault whose message contains the name of the
    expected type [T] and the name of the recorded type. *)
Theorem as_raw_pointer_through_cast (T : cpp_type) (prov : provider) :
  class_of prov <> reference_handle_of T ->
  (cast_ptr_provider_class ∉ class_of prov :: bases_of prov ->
     as_raw_pointer type_name candidate_list base_offset T (Some prov)
     = Throw (invalid_argument
         "Opaque pointer wrapper is not a cast_ptr_provider - not accepted by the API"))
  /\ (cast_ptr_provider_class ∈ class_of prov :: bases_of prov ->
       (dynamic_cast_to candidate_list base_offset T prov <> nullptr ->
          as_raw_pointer type_name candidate_list base_offset T (Some prov)
          = Ok (dynamic_cast_to candidate_list base_offset T prov))
       /\ (~ conversion_declared candidate_list T (wrapped_type_info prov) ->
             exists what : string,
               as_raw_pointer type_name candidate_list base_offset T (Some prov)
               = Throw (invalid_argument what)
               /\ contains (type_name (typeid T)) what
               /\ contains (type_name (wrapped_type_info prov)) what)).
Proof.
  intros Hclass. unfold as_raw_pointer.
  rewrite (dynamic_cast_handle_other T prov Hclass).
  split; [|split].
  - intros Hcap. now rewrite dynamic_cast_None by assumption.
  - intros Hnn. rewrite dynamic_cast_Some by assumption.
    apply is_null_false in Hnn. now rewrite Hnn.
  - intros Hnone. rewrite dynamic_cast_Some by assumption.
    unfold dynamic_cast_to. rewrite dyn_cast_not_declared by assumption.
    change (is_null nullptr) with true. cbv iota.
    eexists. split; [reflexivity|]. unfold wrapped_type_name. split.
    + apply contains_last.
    + rewrite string_append_assoc. exists "Cannot cast pointer to ", (" to a pointer to " +:+ type_name (typeid T)).
      reflexivity.
Qed.

(** C5. On a provider that is exactly a [reference_handle<T>],
    [as_raw_pointer<T>] succeeds and returns the handle's [get_ptr()]. *)
Theorem as_raw_pointer_exact_handle (h : reference_handle) :
  as_raw_pointer type_name candidate_list base_offset (element_type h) (Some (handle_object h))
  = Ok (get_ptr h).
Proof. unfold as_raw_pointer. now rewrite dynamic_cast_handle_exact. Qed.

(** C7, as the code has it.  The template argument of [checked_downcast]
    is the class the provider is cast to, not the wrapped type.
    [checked_downcast<X>] on a non-null provider returns the same object
    when the provider's class is [X] or derives from [X], and otherwise
    fails with an invalid-argument fault whose message contains the name
    of [X] and the name of the recorded type.  For handles:
    [checked_downcast<reference_handle<T>>], which is
    [checked_reference_handle<T>], returns the same object on a handle
    wrapping exactly [T], and on a handle wrapping [U] different from [T]
    fails with a message containing the name of [reference_handle<T>] and
    the name of [U]. *)
Theorem checked_downcast_by_class (X T U : cpp_type) (prov : provider) (sp : shared_ptr) :
  (X ∈ class_of prov :: bases_of prov ->
     checked_downcast type_name X (Some prov) = Ok prov)
  /\ (X ∉ class_of prov :: bases_of prov ->
        exists what : string,
          checked_downcast type_name X (Some prov) = Throw (invalid_argument what)
          /\ contains (type_name (typeid X)) what
          /\ contains (type_name (wrapped_type_info prov)) what)
  /\ checked_reference_handle type_name T (Some (handle_object (ReferenceHandle T sp)))
     = Ok (handle_object (ReferenceHandle T sp))
  /\ (U <> T ->
        exists what : string,
          checked_reference_handle type_name T (Some (handle_object (ReferenceHandle U sp)))
          = Throw (invalid_argument what)
          /\ contains (type_name (typeid (reference_handle_of T))) what
          /\ contains (type_name (typeid U)) what).
Proof.
  assert (Hfail : forall Y q, Y ∉ class_of q :: bases_of q ->
     exists what : string,
       checked_downcast type_name Y (Some q) = Throw (invalid_argument what)
       /\ contains (type_name (typeid Y)) what
       /\ contains (type_name (wrapped_type_info q)) what).
  { intros Y q Hnot. unfold checked_downcast. rewrite dynamic_cast_None by assumption.
    eexists. split; [reflexivity|]. unfold wrapped_type_name. split.
    - exists "Expected type ",
        (", but got an opaque pointer to a type " +:+ type_name (wrapped_type_info q)).
      now rewrite !string_append_assoc.
    - apply contains_last. }
  split; [|split; [|split]].
  - intros Hin. unfold checked_downcast. now rewrite dynamic_cast_Some.
  - apply Hfail.
  - unfold checked_reference_handle, checked_downcast.
    rewrite dynamic_cast_Some; [reflexivity | simpl; left].
  - intros Hne. unfold checked_reference_handle.
    apply (Hfail (reference_handle_of T) (handle_object (ReferenceHandle U sp))).
    rewrite handle_is_a. simpl. intros [E|[E|E]]; congruence.
Qed.

(** C8, as the code has it.  Constructing a [reference_handle<T>] from a
    null raw pointer fails with an invalid-argument fault, and so does
    passing a null provider to the helpers that take one provider:
    [checked_downcast], [checked_reference_handle] and [as_raw_pointer].
    The batch helper [as_raw_pointers] is the exception: it tests no
    entry of its array against null and raises no invalid-argument fault,
    whatever it is given. *)
Theorem null_arguments_rejected (T : cpp_type) (w : world) :
  reference_handle_from_ptr T nullptr w
  = Throw (invalid_argument "Pointer must not be nullptr")
  /\ checked_downcast type_name T None
     = Throw (invalid_argument "The pointer to a reference handle is nullptr")
  /\ checked_reference_handle type_name T None
     = Throw (invalid_argument "The pointer to a reference handle is nullptr")
  /\ as_raw_pointer type_name candidate_list base_offset T None
     = Throw (invalid_argument "Pointer is nullptr - not accepted by the API")
  /\ (forall (sharedPtrs : list (option provider)) (n : Z) (what : string),
        as_raw_pointers T sharedPtrs n <> Some (Throw (invalid_argument what))).
Proof.
  repeat (split; [reflexivity|]).
  intros sharedPtrs n what. unfold as_raw_pointers.
  destruct (decide (n < 0)); [discriminate|].
  destruct (as_raw_pointers_loop T sharedPtrs 0 (Z.to_nat n)
              (replicate (Z.to_nat n) nullptr)); discriminate.
Qed.

End MarshallingProperties.

(** C9. For an array of [n] non-null providers, [as_raw_pointers<T>]
    returns an array of [n] pointers whose entry at every index [i < n]
    is [get_void_ptr()] of the provider at [i], taken as a [T*]; the
    recorded types play no part. *)
Theorem as_raw_pointers_entries (T : cpp_type) (providers : list provider) :
  exists result : list ptr,
    as_raw_pointers T (Some <$> providers) (Z.of_nat (length providers)) = Some (Ok result)
    /\ length result = length providers
    /\ (forall (i : nat) (prov : provider),
          providers !! i = Some prov ->
          result !! i = Some (static_cast_void T (get_void_ptr prov)))
    /\ result = get_void_ptr <$> providers.
Proof.
  exists (get_void_ptr <$> providers). unfold as_raw_pointers.
  destruct (decide (Z.of_nat (length providers) < 0)) as [Hneg|_]; [lia|].
  rewrite Nat2Z.id.
  rewrite as_raw_pointers_loop_fills; [|lia|now rewrite length_replicate].
  simpl. repeat split.
  - now rewrite length_fmap.
  - intros i prov Hprov. rewrite list_lookup_fmap, Hprov. reflexivity.
Qed.

(* ===================================================================== *)
(** * Properties of shared ownership *)
(* ===================================================================== *)

Section SharedPtrSteps.

Variables (b : positive) (p q : ptr) (T : cpp_type).
Variable B : gmap positive control_block.
Variable H : gmap Z registry_entry.
Variable D : list (cpp_type * ptr).

Lemma sp_copy_block (n : Z) :
  sp_copy (SharedPtr b q) (World (<[b := ControlBlock p T n]> B) H D)
  = World (<[b := ControlBlock p T (n + 1)]> B) H D.
Proof. unfold sp_copy, set_blocks. simpl. now rewrite alter_insert_eq. Qed.

Lemma sp_drop_block_shared (n : Z) :
  1 < n ->
  sp_drop (SharedPtr b q) (World (<[b := ControlBlock p T n]> B) H D)
  = World (<[b := ControlBlock p T (n - 1)]> B) H D.
Proof.
  intros Hn. unfold sp_drop, set_blocks. simpl. rewrite lookup_insert_eq. simpl.
  destruct (decide (n <= 1)); [lia|]. now rewrite insert_insert_eq.
Qed.

Lemma sp_drop_block_last (n : Z) :
  n <= 1 ->
  B !! b = None ->
  sp_drop (SharedPtr b q) (World (<[b := ControlBlock p T n]> B) H D)
  = World B H (D ++ [(T, p)]).
Proof.
  intros Hn Hb. unfold sp_drop. simpl. rewrite lookup_insert_eq. simpl.
  destruct (decide (n <= 1)); [|lia]. now rewrite delete_insert_id.
Qed.

Lemma sp_use_count_block (n : Z) :
  sp_use_count (SharedPtr b q) (World (<[b := ControlBlock p T n]> B) H D) = n.
Proof. unfold sp_use_count. simpl. now rewrite lookup_insert_eq. Qed.

End SharedPtrSteps.

Lemma fresh_block_unused (w : world) : blocks w !! fresh (dom (blocks w)) = None.
Proof. apply not_elem_of_dom, is_fresh. Qed.

(** The first handle on an address creates the block: afterwards the
    group has two instances, the registry's and the handle's. *)
Lemma find_shared_ptr_first (T : cpp_type) (p : ptr) (w : world) :
  handle_map w !! p = None ->
  find_shared_ptr T p w
  = (SharedPtr (fresh (dom (blocks w))) p, held w (fresh (dom (blocks w))) p T 2 1).
Proof.
  intros Hp. unfold find_shared_ptr, reference_handle_map.get. rewrite Hp.
  unfold create_shared_ptr, sp_new, set_blocks.
  rewrite sp_copy_block. rewrite sp_drop_block_shared by lia.
  unfold set_handle_map. simpl.
  rewrite !sp_copy_block. rewrite sp_drop_block_shared by lia.
  reflexivity.
Qed.

(** A further handle joins the block of the entry: one more instance,
    one more share, whatever type the caller names. *)
Lemma find_shared_ptr_again (T' T : cpp_type) (p : ptr) (w : world) (b : positive) (n s : Z) :
  0 < n ->
  find_shared_ptr T' p (held w b p T n s)
  = (SharedPtr b p, held w b p T (n + 1) (s + 1)).
Proof.
  intros Hn. unfold find_shared_ptr, reference_handle_map.get, held. simpl.
  rewrite lookup_insert_eq. simpl. unfold set_handle_map. simpl.
  rewrite !sp_copy_block. rewrite sp_drop_block_shared by lia.
  rewrite insert_insert_eq.
  now replace (n + 1 + 1 - 1) with (n + 1) by lia.
Qed.

(** Destroying a handle while others remain gives back one instance and
    one share. *)
Lemma destroy_not_last (h : reference_handle) (w : world) (b : positive) (p : ptr)
    (T : cpp_type) (n s : Z) :
  sharedPtr h = SharedPtr b p ->
  1 < s -> 1 < n ->
  reference_handle_destroy h (held w b p T n s) = held w b p T (n - 1) (s - 1).
Proof.
  intros Hsp Hs Hn. unfold reference_handle_destroy, get_ptr. rewrite Hsp. simpl.
  unfold reference_handle_map.release, held. simpl. rewrite lookup_insert_eq. simpl.
  destruct (decide (s - 1 <= 0)); [lia|].
  unfold set_handle_map. simpl. rewrite sp_drop_block_shared by lia.
  now rewrite insert_insert_eq.
Qed.

(** Destroying the last handle erases the entry, and the block then loses
    its two instances: the destructor of [T] runs on [p]. *)
Lemma destroy_last (h : reference_handle) (w : world) (b : positive) (p : ptr)
    (T : cpp_type) :
  sharedPtr h = SharedPtr b p ->
  blocks w !! b = None ->
  handle_map w !! p = None ->
  reference_handle_destroy h (held w b p T 2 1)
  = World (blocks w) (handle_map w) (destroyed w ++ [(T, p)]).
Proof.
  intros Hsp Hb Hp. unfold reference_handle_destroy, get_ptr. rewrite Hsp. simpl.
  unfold reference_handle_map.release, held. simpl. rewrite lookup_insert_eq. simpl.
  unfold set_handle_map. simpl. rewrite sp_drop_block_shared by lia.
  rewrite sp_drop_block_last by (lia || assumption).
  now rewrite delete_insert_id.
Qed.

(** With [k] handles alive the group has [k + 1] instances, and each
    handle reports [k]. *)
Lemma count_of_live_handles (h : reference_handle) (w : world) (b : positive) (p : ptr)
    (T : cpp_type) (k : Z) :
  sharedPtr h = SharedPtr b p ->
  count h (held w b p T (k + 1) k) = k.
Proof.
  intros Hsp. unfold count, held. rewrite Hsp, sp_use_count_block. lia.
Qed.

Lemma reference_handle_from_ptr_first (T : cpp_type) (p : ptr) (w : world) :
  p <> nullptr ->
  handle_map w !! p = None ->
  reference_handle_from_ptr T p w
  = Ok (ReferenceHandle T (SharedPtr (fresh (dom (blocks w))) p),
        held w (fresh (dom (blocks w))) p T 2 1).
Proof.
  intros Hnn Hp. unfold reference_handle_from_ptr.
  apply is_null_false in Hnn. rewrite Hnn. now rewrite find_shared_ptr_first.
Qed.

Lemma first_handle_creates (from_value : bool) (T : cpp_type) (p : ptr) (w : world) :
  p <> nullptr ->
  handle_map w !! p = None ->
  first_handle from_value T p w
  = Ok (ReferenceHandle T (SharedPtr (fresh (dom (blocks w))) p),
        held w (fresh (dom (blocks w))) p T 2 1).
Proof.
  intros Hnn Hp. destruct from_value; unfold first_handle.
  - unfold reference_handle_from_value. now rewrite find_shared_ptr_first.
  - now apply reference_handle_from_ptr_first.
Qed.

(** Every way to a second handle joins the block of the first. *)
Lemma second_handle_joins (path : creation_path) (T : cpp_type) (p : ptr) (w : world)
    (b : positive) :
  p <> nullptr ->
  second_handle path (ReferenceHandle T (SharedPtr b p)) (held w b p T 2 1)
  = Ok (ReferenceHandle T (SharedPtr b p), held w b p T 3 2).
Proof.
  intros Hnn. apply is_null_false in Hnn.
  destruct path; unfold second_handle, new_reference_handle, reference_handle_from_ptr,
    reference_handle_copy, get_ptr; simpl; rewrite ?Hnn;
    now rewrite find_shared_ptr_again by lia.
Qed.

(** C1. For every type [T] and every non-null address [p] not yet known
    to the registry: after two handles have been created on [p], by any
    of the creation paths, and both destroyed in either order, the
    destructor of [T] has run on [p] exactly once, at the second
    destruction and not before, and the registry has no entry for [p];
    the rest of the state is as before. *)
Theorem two_handles_destroyed_once (from_value : bool) (path : creation_path)
    (first_first : bool) (T : cpp_type) (p : ptr) (w : world) :
  p <> nullptr ->
  handle_map w !! p = None ->
  exists w3 w4 : world,
    two_handles_scenario from_value path first_first T p w = Ok (w3, w4)
    /\ destroyed w3 = destroyed w
    /\ is_Some (handle_map w3 !! p)
    /\ destroyed w4 = destroyed w ++ [(T, p)]
    /\ handle_map w4 !! p = None
    /\ handle_map w4 = handle_map w
    /\ blocks w4 = blocks w.
Proof.
  intros Hnn Hp. unfold two_handles_scenario.
  rewrite first_handle_creates by assumption.
  rewrite second_handle_joins by assumption.
  set (b := fresh (dom (blocks w))).
  exists (held w b p T 2 1), (World (blocks w) (handle_map w) (destroyed w ++ [(T, p)])).
  assert (Hfirst : forall h, sharedPtr h = SharedPtr b p ->
            reference_handle_destroy h (held w b p T 3 2) = held w b p T 2 1).
  { intros h Hh. now rewrite (destroy_not_last h w b p T 3 2) by (lia || assumption). }
  assert (Hlast : forall h, sharedPtr h = SharedPtr b p ->
            reference_handle_destroy h (held w b p T 2 1)
            = World (blocks w) (handle_map w) (destroyed w ++ [(T, p)])).
  { intros h Hh. apply destroy_last; [assumption | apply fresh_block_unused | assumption]. }
  split.
  - destruct first_first; now rewrite Hfirst, Hlast.
  - simpl. repeat split; try assumption.
    rewrite lookup_insert_eq. eauto.
Qed.

(** C2, as the code has it.  For a handle [h1] created, from a value or
    from a raw pointer, on a non-null address not yet known to the
    registry, [h1.count()] is 1; after
    [h2 = h1.new_reference_handle()] both [h1.count()] and [h2.count()]
    are 2; after [h2] is destroyed [h1.count()] is 1 again.  The count is
    [use_count() - 1], the registry's own instance left out. *)
Theorem count_excludes_registry (from_value : bool) (T : cpp_type) (p : ptr) (w : world) :
  p <> nullptr ->
  handle_map w !! p = None ->
  alias_scenario from_value T p w = Ok (1, 2, 2, 1).
Proof.
  intros Hnn Hp. unfold alias_scenario.
  rewrite first_handle_creates by assumption.
  unfold new_reference_handle, reference_handle_from_ptr, get_ptr. simpl.
  pose proof Hnn as Hnull. apply is_null_false in Hnull. rewrite Hnull.
  rewrite find_shared_ptr_again by lia.
  rewrite (destroy_not_last _ w (fresh (dom (blocks w))) p T 3 2) by (reflexivity || lia).
  unfold count, held. simpl. now rewrite !sp_use_count_block.
Qed.

(** A handle obtained from a raw pointer wraps the type named at
    construction and never a null address. *)
Lemma reference_handle_from_ptr_wraps (T : cpp_type) (p : ptr) (w w' : world)
    (h : reference_handle) :
  reference_handle_from_ptr T p w = Ok (h, w') ->
  p <> nullptr /\ element_type h = T /\ (handle_map w !! p = None -> get_ptr h = p).
Proof.
  unfold reference_handle_from_ptr. destruct (is_null p) eqn:Hnull; [discriminate|].
  apply is_null_false in Hnull.
  destruct (find_shared_ptr T p w) as [sp w1] eqn:Hfind. intros [= <- <-].
  repeat split; [assumption|]. intros Hp.
  rewrite find_shared_ptr_first in Hfind by assumption. now injection Hfind as <- _.
Qed.

(* ===================================================================== *)
(** * The statements on the animals program *)
(* ===================================================================== *)

Lemma two_handles_destroyed_once_witness :
  4096 <> nullptr
  /\ handle_map initial_world !! 4096 = None
  /\ exists w3 w4 : world,
       two_handles_scenario false adopt_pointer false dog 4096 initial_world = Ok (w3, w4)
       /\ destroyed w3 = destroyed initial_world
       /\ is_Some (handle_map w3 !! 4096)
       /\ destroyed w4 = destroyed initial_world ++ [(dog, 4096)]
       /\ handle_map w4 !! 4096 = None
       /\ handle_map w4 = handle_map initial_world
       /\ blocks w4 = blocks initial_world.
Proof.
  split; [discriminate|]. split; [reflexivity|].
  apply (two_handles_destroyed_once false adopt_pointer false dog 4096 initial_world);
    [discriminate | reflexivity].
Defined.

Lemma count_excludes_registry_witness :
  4096 <> nullptr
  /\ handle_map initial_world !! 4096 = None
  /\ alias_scenario true dog 4096 initial_world = Ok (1, 2, 2, 1).
Proof.
  split; [discriminate|]. split; [reflexivity|].
  apply (count_excludes_registry true dog 4096 initial_world); [discriminate | reflexivity].
Defined.

(** The counts the specification announces for this scenario, 0 then 1
    and 1 then 0, are not the ones the code reports: a single handle
    already counts 1. *)
Lemma count_of_single_handle_not_zero :
  alias_scenario false dog 4096 initial_world = Ok (1, 2, 2, 1)
  /\ alias_scenario false dog 4096 initial_world <> Ok (0, 1, 1, 0).
Proof. split; [vm_compute; reflexivity | vm_compute; discriminate]. Qed.

(** A provider recorded as [dog] that exposes a null pointer: the cast to
    [dog], a type without candidate list, is null although the recorded
    identity is the one of [dog]. *)
Lemma dynamic_cast_to_null_although_same_type :
  zoo_candidate_list dog = None
  /\ wrapped_type_info (cast_object 7 dog nullptr) = typeid dog
  /\ dynamic_cast_to zoo_candidate_list zoo_base_offset dog (cast_object 7 dog nullptr)
     = nullptr
  /\ ~ (dynamic_cast_to zoo_candidate_list zoo_base_offset dog (cast_object 7 dog nullptr)
          <> nullptr
        <-> wrapped_type_info (cast_object 7 dog nullptr) = typeid dog).
Proof.
  split; [reflexivity|]. split; [reflexivity|]. split; [reflexivity|].
  intros [_ Hback]. apply (Hback eq_refl). reflexivity.
Qed.

(** An array whose only entry is a null provider, given to the batch
    helper: the null pointer is dereferenced, no invalid-argument fault
    is raised. *)
Lemma as_raw_pointers_null_entry_unchecked :
  as_raw_pointers dog [None] 1 = None
  /\ forall what : string,
       as_raw_pointers dog [None] 1 <> Some (Throw (invalid_argument what)).
Proof. split; [reflexivity | intros what; discriminate]. Qed.

Lemma dynamic_cast_to_default_exact_witness :
  zoo_candidate_list dog = None
  /\ get_void_ptr (handle_object a_dog_handle) <> nullptr
  /\ (dynamic_cast_to zoo_candidate_list zoo_base_offset dog (handle_object a_dog_handle)
        <> nullptr
      <-> wrapped_type_info (handle_object a_dog_handle) = typeid dog)
  /\ (wrapped_type_info (handle_object a_dog_handle) <> typeid dog ->
        dynamic_cast_to zoo_candidate_list zoo_base_offset dog (handle_object a_dog_handle)
        = nullptr)
  /\ (wrapped_type_info (handle_object a_dog_handle) = typeid dog ->
        dynamic_cast_to zoo_candidate_list zoo_base_offset dog (handle_object a_dog_handle)
        = get_void_ptr (handle_object a_dog_handle)).
Proof.
  split; [reflexivity|]. split; [discriminate|].
  apply (dynamic_cast_to_default_exact zoo_candidate_list zoo_base_offset dog
           (handle_object a_dog_handle)); [reflexivity | discriminate].
Defined.

Lemma as_type_left_to_right_witness :
  zoo_candidate_list animal = Some ([dog] ++ cat :: [])
  /\ wrapped_type_info (handle_object a_cat_handle) = typeid cat
  /\ Forall (fun S => wrapped_type_info (handle_object a_cat_handle) <> typeid S) [dog]
  /\ dynamic_cast_to zoo_candidate_list zoo_base_offset animal (handle_object a_cat_handle)
     = static_cast_class zoo_base_offset cat animal
         (static_cast_void cat (get_void_ptr (handle_object a_cat_handle))).
Proof.
  assert (Hskip : Forall (fun S => wrapped_type_info (handle_object a_cat_handle) <> typeid S)
                    [dog]).
  { constructor; [discriminate | constructor]. }
  split; [reflexivity|]. split; [reflexivity|]. split; [exact Hskip|].
  apply (as_type_left_to_right zoo_candidate_list zoo_base_offset animal cat [dog] []
           (handle_object a_cat_handle) eq_refl eq_refl Hskip).
Defined.

(** The cat seen as an animal: the pointer moves to the [animal]
    subobject, 16 bytes further. *)
Example cat_as_animal :
  as_raw_pointer zoo_type_name zoo_candidate_list zoo_base_offset animal
    (Some (handle_object a_cat_handle))
  = Ok 8208.
Proof. vm_compute. reflexivity. Qed.

(** A cat whose [animal] subobject would start at [2 ^ 64]: the
    displaced pointer wraps to null, and the retrieval is refused. *)
Example cat_at_the_end_of_memory :
  as_raw_pointer zoo_type_name zoo_candidate_list zoo_base_offset animal
    (Some (cast_object 7 cat (2 ^ 64 - 16)))
  = Throw (invalid_argument "Cannot cast pointer to cat to a pointer to animal").
Proof. vm_compute. reflexivity. Qed.

Lemma as_raw_pointer_through_cast_witness :
  class_of (handle_object a_dog_handle) <> reference_handle_of cat
  /\ cast_ptr_provider_class
       ∈ class_of (handle_object a_dog_handle) :: bases_of (handle_object a_dog_handle)
  /\ ~ conversion_declared zoo_candidate_list cat
         (wrapped_type_info (handle_object a_dog_handle))
  /\ exists what : string,
       as_raw_pointer zoo_type_name zoo_candidate_list zoo_base_offset cat
         (Some (handle_object a_dog_handle))
       = Throw (invalid_argument what)
       /\ contains (zoo_type_name (typeid cat)) what
       /\ contains (zoo_type_name (wrapped_type_info (handle_object a_dog_handle))) what.
Proof.
  assert (Hclass : class_of (handle_object a_dog_handle) <> reference_handle_of cat)
    by discriminate.
  assert (Hcap : cast_ptr_provider_class
            ∈ class_of (handle_object a_dog_handle) :: bases_of (handle_object a_dog_handle))
    by (simpl; right; left).
  assert (Hnone : ~ conversion_declared zoo_candidate_list cat
                      (wrapped_type_info (handle_object a_dog_handle))).
  { unfold conversion_declared. simpl. intros Hin.
    apply elem_of_cons in Hin as [Hin|Hin]; [discriminate | now apply elem_of_nil in Hin]. }
  split; [exact Hclass|]. split; [exact Hcap|]. split; [exact Hnone|].
  exact (proj2 (proj2 (as_raw_pointer_through_cast zoo_type_name zoo_candidate_list
                         zoo_base_offset cat (handle_object a_dog_handle) Hclass) Hcap)
           Hnone).
Defined.

Example dog_is_no_cat :
  as_raw_pointer zoo_type_name zoo_candidate_list zoo_base_offset cat
    (Some (handle_object a_dog_handle))
  = Throw (invalid_argument "Cannot cast pointer to dog to a pointer to cat").
Proof. vm_compute. reflexivity. Qed.

Lemma checked_downcast_by_class_witness :
  cat <> dog
  /\ exists what : string,
       checked_reference_handle zoo_type_name dog
         (Some (handle_object (ReferenceHandle cat (SharedPtr 2 8192))))
       = Throw (invalid_argument what)
       /\ contains (zoo_type_name (typeid (reference_handle_of dog))) what
       /\ contains (zoo_type_name (typeid cat)) what.
Proof.
  assert (Hne : cat <> dog) by discriminate.
  split; [exact Hne|].
  exact (proj2 (proj2 (proj2 (checked_downcast_by_class zoo_type_name
                                (reference_handle_of dog) dog cat
                                (handle_object a_cat_handle) (SharedPtr 2 8192)))) Hne).
Defined.

(** [checked_downcast<dog>] on a handle that wraps exactly [dog] does
    not succeed: a [reference_handle<dog>] is not a [dog]. *)
Lemma checked_downcast_to_wrapped_type_fails :
  wrapped_type_info (handle_object a_dog_handle) = typeid dog
  /\ checked_downcast zoo_type_name dog (Some (handle_object a_dog_handle))
     = Throw (invalid_argument "Expected type dog, but got an opaque pointer to a type dog")
  /\ forall same : provider,
       checked_downcast zoo_type_name dog (Some (handle_object a_dog_handle)) <> Ok same.
Proof.
  split; [reflexivity|]. split; [vm_compute; reflexivity|].
  intros same. vm_compute. discriminate.
Qed.

(* ===================================================================== *)
(** * Further properties of the trampoline casts *)
(* ===================================================================== *)

Section CastFacts.

Variable candidate_list : cpp_type -> option (list cpp_type).
Variable base_offset : cpp_type -> cpp_type -> Z.

Lemma static_cast_class_same (T : cpp_type) (q : ptr) :
  static_cast_class base_offset T T q = q.
Proof. unfold static_cast_class. now rewrite decide_True. Qed.

Lemma static_cast_class_null (R T : cpp_type) :
  static_cast_class base_offset R T nullptr = nullptr.
Proof. unfold static_cast_class. now destruct (decide (R = T)). Qed.

(** The walk of [as_type<T, ...>] accepts the identity of [T] at the
    address given: a candidate equal to [T] casts [T*] to [T*], and the
    terminal overload compares with [T]. *)
Lemma as_type_own_type (T : cpp_type) (Rs : list cpp_type) (p : ptr) :
  as_type base_offset T Rs p (typeid T) = p.
Proof.
  induction Rs as [|R Rs IH]; simpl.
  - now rewrite decide_True.
  - destruct (decide (typeid T = typeid R)) as [E|_]; [|exact IH].
    unfold typeid in E. subst R. apply static_cast_class_same.
Qed.

Lemma as_type_null (T : cpp_type) (Rs : list cpp_type) (tinfo : typeinfo) :
  as_type base_offset T Rs nullptr tinfo = nullptr.
Proof.
  induction Rs as [|R Rs IH]; simpl.
  - now destruct (decide (tinfo = typeid T)).
  - destruct (decide (tinfo = typeid R)); [apply static_cast_class_null | exact IH].
Qed.

Lemma dyn_cast_null (U : cpp_type) (tinfo : typeinfo) :
  dyn_cast candidate_list base_offset U nullptr tinfo = nullptr.
Proof.
  unfold dyn_cast. destruct (candidate_list U).
  - apply as_type_null.
  - rewrite default_dyn_cast_value. now destruct (decide (tinfo = typeid U)).
Qed.

(** X1. A provider whose recorded type is [U] itself casts to [U] at the
    address it exposes, whether or not [known_conversions<U>] is
    specialised and whatever candidates the specialisation lists. *)
Theorem dynamic_cast_to_own_type (U : cpp_type) (cpp : provider) :
  wrapped_type_info cpp = typeid U ->
  dynamic_cast_to candidate_list base_offset U cpp = get_void_ptr cpp.
Proof.
  intros Hsame. unfold dynamic_cast_to, dyn_cast. rewrite Hsame.
  destruct (candidate_list U).
  - apply as_type_own_type.
  - rewrite default_dyn_cast_value. now rewrite decide_True.
Qed.

(** A non-null result of the cast is evidence of a declared conversion. *)
Lemma dynamic_cast_to_declared (U : cpp_type) (cpp : provider) :
  dynamic_cast_to candidate_list base_offset U cpp <> nullptr ->
  conversion_declared candidate_list U (wrapped_type_info cpp).
Proof.
  intros Hnn. unfold conversion_declared.
  destruct (decide (wrapped_type_info cpp ∈ typeid U :: default [] (candidate_list U)))
    as [Hdecl|Hnot]; [exact Hdecl|].
  exfalso. apply Hnn. unfold dynamic_cast_to. now apply dyn_cast_not_declared.
Qed.

(** X2. The trampoline cast succeeds only through a declared conversion:
    when [can_cast_to<U>()] holds, the recorded type is [U] or one of the
    candidates listed for [U]. *)
Theorem can_cast_to_only_declared (U : cpp_type) (cpp : provider) :
  can_cast_to candidate_list base_offset U cpp = true ->
  conversion_declared candidate_list U (wrapped_type_info cpp).
Proof.
  unfold can_cast_to. rewrite negb_true_iff, is_null_false.
  apply dynamic_cast_to_declared.
Qed.

(** X3. A provider that exposes a null pointer casts to nothing: for
    every target [dynamic_cast_to] is null and [can_cast_to] is false,
    also when the recorded type is the target itself. *)
Theorem null_pointer_never_casts (U : cpp_type) (cpp : provider) :
  get_void_ptr cpp = nullptr ->
  dynamic_cast_to candidate_list base_offset U cpp = nullptr
  /\ can_cast_to candidate_list base_offset U cpp = false.
Proof.
  intros Hnull. unfold can_cast_to, dynamic_cast_to. rewrite Hnull, dyn_cast_null.
  split; reflexivity.
Qed.

(** The value of the cast through the first matching candidate. *)
Lemma dynamic_cast_to_first_match (T R : cpp_type) (skipped rest : list cpp_type)
    (cpp : provider) :
  candidate_list T = Some (skipped ++ R :: rest) ->
  wrapped_type_info cpp = typeid R ->
  Forall (fun S => wrapped_type_info cpp <> typeid S) skipped ->
  dynamic_cast_to candidate_list base_offset T cpp
  = static_cast_class base_offset R T (get_void_ptr cpp).
Proof.
  intros Hlist Hmatch Hskip.
  unfold dynamic_cast_to, dyn_cast. rewrite Hlist, as_type_skip by assumption.
  simpl. now rewrite decide_True.
Qed.

End CastFacts.

(* ===================================================================== *)
(** * Further properties of the batch helper *)
(* ===================================================================== *)

(** The loop reads the entries from [i] on and nothing after the last
    index it is asked to fill. *)
Lemma as_raw_pointers_loop_prefix (T : cpp_type) (providers : list provider)
    (beyond : list (option provider)) (remaining i : nat) (result : list ptr) :
  (i + remaining)%nat = length providers ->
  length result = length providers ->
  as_raw_pointers_loop T ((Some <$> providers) ++ beyond) i remaining result
  = Some (take i result ++ (get_void_ptr <$> drop i providers)).
Proof.
  revert i result. induction remaining as [|remaining IH]; intros i result Hi Hlen; simpl.
  - rewrite Nat.add_0_r in Hi. subst i. rewrite drop_all, <- Hlen, firstn_all.
    now rewrite app_nil_r.
  - destruct (lookup_lt_is_Some_2 providers i) as [prov Hprov]; [lia|].
    rewrite lookup_app_l by (rewrite length_fmap; lia).
    rewrite list_lookup_fmap, Hprov. simpl.
    rewrite IH; [|lia|now rewrite length_insert].
    f_equal.
    rewrite (take_S_r _ i (static_cast_void T (get_void_ptr prov)))
      by (apply list_lookup_insert_eq; lia).
    rewrite take_insert_ge by lia.
    rewrite (drop_S providers prov i Hprov). simpl.
    now rewrite <- app_assoc.
Qed.

(** A loop that completes has found a provider at every index it read. *)
Lemma as_raw_pointers_loop_reads (T : cpp_type) (sharedPtrs : list (option provider))
    (remaining i : nat) (result filled : list ptr) :
  as_raw_pointers_loop T sharedPtrs i remaining result = Some filled ->
  forall j : nat, (i <= j < i + remaining)%nat ->
    exists prov : provider, sharedPtrs !! j = Some (Some prov).
Proof.
  revert i result. induction remaining as [|remaining IH]; intros i result Hloop j Hj.
  - lia.
  - simpl in Hloop.
    destruct (sharedPtrs !! i) as [[prov|]|] eqn:Hi; try discriminate.
    destruct (decide (j = i)) as [->|Hne]; [eauto|].
    apply (IH (S i) _ Hloop). lia.
Qed.

(** An array whose first [n] entries are providers splits into these
    providers and the rest. *)
Lemma providers_prefix (sharedPtrs : list (option provider)) (n : nat) :
  (forall j : nat, (j < n)%nat -> exists prov : provider, sharedPtrs !! j = Some (Some prov)) ->
  exists (providers : list provider) (beyond : list (option provider)),
    sharedPtrs = (Some <$> providers) ++ beyond /\ length providers = n.
Proof.
  revert sharedPtrs. induction n as [|n IH]; intros sharedPtrs Hall.
  - exists [], sharedPtrs. split; reflexivity.
  - destruct (Hall 0%nat) as [prov Hprov]; [lia|].
    destruct sharedPtrs as [|entry others]; [discriminate|].
    simpl in Hprov. injection Hprov as ->.
    destruct (IH others) as (providers & beyond & -> & Hlen).
    { intros j Hj. apply (Hall (S j)). lia. }
    exists (prov :: providers), beyond. split; [reflexivity | simpl; lia].
Qed.

(** X9. [as_raw_pointers<T>(sharedPtrs, n)] reads the first [n] entries
    of the array and no other: when these are providers the result is the
    list of their untyped pointers, whatever follows them in the array,
    null entries included.  In particular [n = 0] gives an empty array
    for every argument. *)
Theorem as_raw_pointers_reads_first_n (T : cpp_type) (providers : list provider)
    (beyond : list (option provider)) :
  as_raw_pointers T ((Some <$> providers) ++ beyond) (Z.of_nat (length providers))
  = Some (Ok (get_void_ptr <$> providers)).
Proof.
  unfold as_raw_pointers.
  destruct (decide (Z.of_nat (length providers) < 0)) as [Hneg|_]; [lia|].
  rewrite Nat2Z.id.
  rewrite as_raw_pointers_loop_prefix; [reflexivity | lia | now rewrite length_replicate].
Qed.

(** X10. The converse: when [as_raw_pointers<T>(sharedPtrs, n)] returns
    an array, [n] is not negative, the first [n] entries of [sharedPtrs]
    are providers, none of them null, and the array holds exactly their
    untyped pointers.  Whatever the arguments, the helper raises no
    invalid-argument fault: a null entry is not detected. *)
Theorem as_raw_pointers_result (T : cpp_type) (sharedPtrs : list (option provider))
    (n : Z) :
  (forall result : list ptr,
     as_raw_pointers T sharedPtrs n = Some (Ok result) ->
     0 <= n
     /\ exists (providers : list provider) (beyond : list (option provider)),
          sharedPtrs = (Some <$> providers) ++ beyond
          /\ Z.of_nat (length providers) = n
          /\ result = get_void_ptr <$> providers)
  /\ (forall what : string,
        as_raw_pointers T sharedPtrs n <> Some (Throw (invalid_argument what))).
Proof.
  unfold as_raw_pointers. destruct (decide (n < 0)) as [|Hn].
  { split; [intros result Hres | intros what Hres]; discriminate. }
  destruct (as_raw_pointers_loop T sharedPtrs 0 (Z.to_nat n)
              (replicate (Z.to_nat n) nullptr)) as [filled|] eqn:Hloop; simpl.
  2: { split; [intros result Hres | intros what Hres]; discriminate. }
  split; [|intros what Hres; discriminate].
  intros result [= <-]. split; [lia|].
  destruct (providers_prefix sharedPtrs (Z.to_nat n)) as (providers & beyond & -> & Hlen).
  { intros j Hj. apply (as_raw_pointers_loop_reads T _ _ _ _ _ Hloop). lia. }
  exists providers, beyond. split; [reflexivity|]. split; [lia|].
  rewrite <- Hlen in Hloop.
  rewrite as_raw_pointers_loop_prefix in Hloop by (lia || now rewrite length_replicate).
  now injection Hloop as <-.
Qed.

(* ===================================================================== *)
(** * Further properties of the marshalling helpers *)
(* ===================================================================== *)

(** A provider of class [reference_handle<T>] is a handle object whose
    element type is [T]. *)
Lemma class_of_handle (T : cpp_type) (prov : provider) :
  class_of prov = reference_handle_of T ->
  exists h : reference_handle, prov = handle_object h /\ element_type h = T.
Proof.
  destruct prov as [h| |]; simpl; intros E; try discriminate.
  exists h. split; [reflexivity | congruence].
Qed.

(** Every handle has the cast capability. *)
Lemma handle_has_capability (T : cpp_type) (prov : provider) :
  class_of prov = reference_handle_of T ->
  cast_ptr_provider_class ∈ class_of prov :: bases_of prov.
Proof.
  intros E. destruct (class_of_handle T prov E) as (h & -> & _).
  apply handle_is_a. right. left. reflexivity.
Qed.

Section MarshallingFacts.

Variable type_name : cpp_type -> string.
Variable candidate_list : cpp_type -> option (list cpp_type).
Variable base_offset : cpp_type -> cpp_type -> Z.

Lemma as_raw_pointer_on_handle (T : cpp_type) (prov : provider) :
  class_of prov = reference_handle_of T ->
  as_raw_pointer type_name candidate_list base_offset T (Some prov)
  = Ok (get_void_ptr prov).
Proof.
  intros E. destruct (class_of_handle T prov E) as (h & -> & <-).
  unfold as_raw_pointer. now rewrite dynamic_cast_handle_exact.
Qed.

Lemma as_raw_pointer_on_other (T : cpp_type) (prov : provider) :
  class_of prov <> reference_handle_of T ->
  cast_ptr_provider_class ∈ class_of prov :: bases_of prov ->
  as_raw_pointer type_name candidate_list base_offset T (Some prov)
  = if can_cast_to candidate_list base_offset T prov
    then Ok (dynamic_cast_to candidate_list base_offset T prov)
    else Throw (invalid_argument
           ((("Cannot cast pointer to " +:+ wrapped_type_name type_name prov)
               +:+ " to a pointer to ") +:+ type_name (typeid T))).
Proof.
  intros Hclass Hcap. unfold as_raw_pointer, can_cast_to.
  rewrite (dynamic_cast_handle_other T prov Hclass), dynamic_cast_Some by assumption.
  now destruct (is_null (dynamic_cast_to candidate_list base_offset T prov)).
Qed.

Lemma as_raw_pointer_without_capability (T : cpp_type) (prov : provider) :
  cast_ptr_provider_class ∉ class_of prov :: bases_of prov ->
  as_raw_pointer type_name candidate_list base_offset T (Some prov)
  = Throw (invalid_argument
      "Opaque pointer wrapper is not a cast_ptr_provider - not accepted by the API").
Proof.
  intros Hcap. unfold as_raw_pointer.
  rewrite dynamic_cast_handle_other, dynamic_cast_None; [reflexivity | assumption |].
  intros E. apply Hcap. now apply (handle_has_capability T).
Qed.

(** X4. On a provider with the cast capability, [as_raw_pointer<T>]
    succeeds exactly when the provider is a [reference_handle<T>] or
    [can_cast_to<T>()] holds; [can_cast_to] therefore tells beforehand
    whether the retrieval of any other provider will throw. *)
Theorem as_raw_pointer_succeeds_iff (T : cpp_type) (prov : provider) :
  cast_ptr_provider_class ∈ class_of prov :: bases_of prov ->
  (exists r : ptr, as_raw_pointer type_name candidate_list base_offset T (Some prov) = Ok r)
  <-> class_of prov = reference_handle_of T
      \/ can_cast_to candidate_list base_offset T prov = true.
Proof.
  intros Hcap. destruct (decide (class_of prov = reference_handle_of T)) as [E|Hne].
  - rewrite as_raw_pointer_on_handle by assumption. split; [now left | eauto].
  - rewrite as_raw_pointer_on_other by assumption.
    destruct (can_cast_to candidate_list base_offset T prov).
    + split; [now right | eauto].
    + split; [intros [r Hr]; discriminate | intros [E|E]; [contradiction | discriminate]].
Qed.

(** X5. What a successful [as_raw_pointer<T>] guarantees: the provider is
    not null and has the cast capability, its recorded type is [T] or a
    candidate declared for [T], and the pointer returned is not null when
    the provider exposes an object. *)
Theorem as_raw_pointer_sound (T : cpp_type) (sharedPtr : option provider) (r : ptr) :
  as_raw_pointer type_name candidate_list base_offset T sharedPtr = Ok r ->
  exists prov : provider,
    sharedPtr = Some prov
    /\ cast_ptr_provider_class ∈ class_of prov :: bases_of prov
    /\ conversion_declared candidate_list T (wrapped_type_info prov)
    /\ (get_void_ptr prov <> nullptr -> r <> nullptr).
Proof.
  destruct sharedPtr as [prov|]; [|discriminate]. intros Hok. exists prov.
  split; [reflexivity|].
  destruct (decide (class_of prov = reference_handle_of T)) as [E|Hne].
  - rewrite as_raw_pointer_on_handle in Hok by assumption. injection Hok as <-.
    split; [now apply (handle_has_capability T)|].
    split; [|auto].
    destruct (class_of_handle T prov E) as (h & -> & <-). left.
  - destruct (decide (cast_ptr_provider_class ∈ class_of prov :: bases_of prov))
      as [Hcap|Hcap].
    + rewrite as_raw_pointer_on_other in Hok by assumption.
      destruct (can_cast_to candidate_list base_offset T prov) eqn:Hcan; [|discriminate].
      injection Hok as <-. split; [assumption|].
      unfold can_cast_to in Hcan. apply negb_true_iff, is_null_false in Hcan.
      split; [now apply (dynamic_cast_to_declared candidate_list base_offset)
             | intros _; exact Hcan].
    + rewrite as_raw_pointer_without_capability in Hok by assumption. discriminate.
Qed.

(** X6. For a target type [T] without specialisation of
    [known_conversions], a successful [as_raw_pointer<T>] returns the
    very address the provider exposes, and the recorded type is [T]. *)
Theorem as_raw_pointer_default_same_address (T : cpp_type) (prov : provider) (r : ptr) :
  candidate_list T = None ->
  as_raw_pointer type_name candidate_list base_offset T (Some prov) = Ok r ->
  r = get_void_ptr prov /\ wrapped_type_info prov = typeid T.
Proof.
  intros Hnone Hok.
  destruct (decide (class_of prov = reference_handle_of T)) as [E|Hne].
  - rewrite as_raw_pointer_on_handle in Hok by assumption. injection Hok as <-.
    split; [reflexivity|]. now destruct (class_of_handle T prov E) as (h & -> & <-).
  - destruct (decide (cast_ptr_provider_class ∈ class_of prov :: bases_of prov))
      as [Hcap|Hcap].
    + rewrite as_raw_pointer_on_other in Hok by assumption.
      destruct (can_cast_to candidate_list base_offset T prov) eqn:Hcan; [|discriminate].
      injection Hok as <-.
      unfold can_cast_to in Hcan. apply negb_true_iff, is_null_false in Hcan.
      rewrite dynamic_cast_to_default_value in * by assumption.
      destruct (decide (wrapped_type_info prov = typeid T)); [auto | contradiction].
    + rewrite as_raw_pointer_without_capability in Hok by assumption. discriminate.
Qed.

(** X7. With a specialisation for [T] whose first candidate equal to the
    recorded type is [R], [as_raw_pointer<T>] returns the exposed address
    cast to [R*] and then to [T*], that is displaced to the [T] subobject
    of the [R] object, provided that pointer is not null. *)
Theorem as_raw_pointer_through_candidate (T R : cpp_type) (skipped rest : list cpp_type)
    (prov : provider) :
  candidate_list T = Some (skipped ++ R :: rest) ->
  wrapped_type_info prov = typeid R ->
  Forall (fun S => wrapped_type_info prov <> typeid S) skipped ->
  cast_ptr_provider_class ∈ class_of prov :: bases_of prov ->
  static_cast_class base_offset R T (get_void_ptr prov) <> nullptr ->
  as_raw_pointer type_name candidate_list base_offset T (Some prov)
  = Ok (static_cast_class base_offset R T (get_void_ptr prov)).
Proof.
  intros Hlist Hmatch Hskip Hcap Hnn.
  pose proof (dynamic_cast_to_first_match candidate_list base_offset T R skipped rest
                prov Hlist Hmatch Hskip) as Hcast.
  destruct (decide (class_of prov = reference_handle_of T)) as [E|Hne].
  - rewrite as_raw_pointer_on_handle by assumption.
    destruct (class_of_handle T prov E) as (h & -> & <-).
    simpl in Hmatch. unfold typeid in Hmatch. subst R.
    now rewrite static_cast_class_same.
  - rewrite as_raw_pointer_on_other by assumption.
    unfold can_cast_to. rewrite Hcast.
    apply is_null_false in Hnn. now rewrite Hnn.
Qed.

(** X8. [checked_reference_handle<T>] succeeds only on a
    [reference_handle<T>], which it returns unchanged; the recorded type
    is then [T], and [as_raw_pointer<T>] on the same argument returns the
    pointer of that handle. *)
Theorem checked_reference_handle_then_raw_pointer (T : cpp_type)
    (sharedPtr : option provider) (prov : provider) :
  checked_reference_handle type_name T sharedPtr = Ok prov ->
  sharedPtr = Some prov
  /\ class_of prov = reference_handle_of T
  /\ wrapped_type_info prov = typeid T
  /\ as_raw_pointer type_name candidate_list base_offset T sharedPtr
     = Ok (get_void_ptr prov).
Proof.
  unfold checked_reference_handle, checked_downcast.
  destruct sharedPtr as [q|]; [|discriminate].
  unfold dynamic_cast. case_bool_decide as Hin; [|discriminate].
  intros [= <-]. apply elem_of_cons in Hin as [E|Hin];
    [|now apply handle_class_not_a_base in Hin].
  symmetry in E. split; [reflexivity|]. split; [exact E|].
  split; [|now apply as_raw_pointer_on_handle].
  now destruct (class_of_handle T q E) as (h & -> & <-).
Qed.

(** A successful retrieval went through one of the two branches. *)
Lemma as_raw_pointer_ok_inv (T : cpp_type) (prov : provider) (r : ptr) :
  as_raw_pointer type_name candidate_list base_offset T (Some prov) = Ok r ->
  (class_of prov = reference_handle_of T /\ r = get_void_ptr prov)
  \/ (class_of prov <> reference_handle_of T
      /\ r = dynamic_cast_to candidate_list base_offset T prov
      /\ r <> nullptr).
Proof.
  intros Hok. destruct (decide (class_of prov = reference_handle_of T)) as [E|Hne].
  - rewrite as_raw_pointer_on_handle in Hok by assumption. injection Hok as <-. now left.
  - right. split; [assumption|].
    destruct (decide (cast_ptr_provider_class ∈ class_of prov :: bases_of prov))
      as [Hcap|Hcap].
    + rewrite as_raw_pointer_on_other in Hok by assumption.
      destruct (can_cast_to candidate_list base_offset T prov) eqn:Hcan; [|discriminate].
      injection Hok as <-. split; [reflexivity|].
      unfold can_cast_to in Hcan. now apply negb_true_iff, is_null_false in Hcan.
    + rewrite as_raw_pointer_without_capability in Hok by assumption. discriminate.
Qed.

(** X11. For a target type [T] without specialisation, the batch helper
    agrees with the checked one: when [as_raw_pointer<T>] succeeds on
    every provider of an array, [as_raw_pointers<T>] returns the array of
    the same pointers. *)
Theorem as_raw_pointers_agrees_with_checked (T : cpp_type) (providers : list provider) :
  candidate_list T = None ->
  Forall (fun prov => exists r : ptr,
            as_raw_pointer type_name candidate_list base_offset T (Some prov) = Ok r)
         providers ->
  exists result : list ptr,
    as_raw_pointers T (Some <$> providers) (Z.of_nat (length providers)) = Some (Ok result)
    /\ Forall2 (fun prov r =>
                  as_raw_pointer type_name candidate_list base_offset T (Some prov) = Ok r)
               providers result.
Proof.
  intros Hnone Hall. exists (get_void_ptr <$> providers). split.
  - rewrite <- (app_nil_r (Some <$> providers)).
    unfold as_raw_pointers.
    destruct (decide (Z.of_nat (length providers) < 0)) as [Hneg|_]; [lia|].
    rewrite Nat2Z.id.
    rewrite as_raw_pointers_loop_prefix; [reflexivity | lia | now rewrite length_replicate].
  - apply Forall2_fmap_r, Forall_Forall2_diag.
    eapply Forall_impl; [exact Hall|]. intros prov [r Hr]. rewrite Hr. f_equal.
    destruct (as_raw_pointer_ok_inv T prov r Hr) as [[_ ->]|(_ & -> & Hnn)]; [reflexivity|].
    rewrite dynamic_cast_to_default_value in * by assumption.
    destruct (decide (wrapped_type_info prov = typeid T)); [reflexivity | contradiction].
Qed.

(** X12. With a specialisation the two helpers part: when the checked
    retrieval goes through a candidate [R] other than [T] whose [T]
    subobject lies at an offset that is not a multiple of [2 ^ 64], on a
    provider that exposes a 64-bit address, [as_raw_pointer<T>] returns
    the displaced address, wrapped at [2 ^ 64], while
    [as_raw_pointers<T>] returns the address of the [R] object as it is,
    and the two differ. *)
Theorem as_raw_pointers_ignores_displacement (T R : cpp_type) (skipped rest : list cpp_type)
    (prov : provider) :
  candidate_list T = Some (skipped ++ R :: rest) ->
  wrapped_type_info prov = typeid R ->
  Forall (fun S => wrapped_type_info prov <> typeid S) skipped ->
  cast_ptr_provider_class ∈ class_of prov :: bases_of prov ->
  R <> T ->
  base_offset R T mod pointer_modulus <> 0 ->
  0 < get_void_ptr prov < pointer_modulus ->
  wrap_pointer (get_void_ptr prov + base_offset R T) <> nullptr ->
  as_raw_pointer type_name candidate_list base_offset T (Some prov)
  = Ok (wrap_pointer (get_void_ptr prov + base_offset R T))
  /\ as_raw_pointers T [Some prov] 1 = Some (Ok [get_void_ptr prov])
  /\ wrap_pointer (get_void_ptr prov + base_offset R T) <> get_void_ptr prov.
Proof.
  intros Hlist Hmatch Hskip Hcap HRT Hoff Hrange Hnn'.
  assert (Hnn : get_void_ptr prov <> nullptr) by (unfold nullptr; lia).
  assert (Hclass : class_of prov <> reference_handle_of T).
  { intros E. destruct (class_of_handle T prov E) as (h & -> & <-).
    simpl in Hmatch. unfold typeid in Hmatch. congruence. }
  assert (Hcast : dynamic_cast_to candidate_list base_offset T prov
                  = wrap_pointer (get_void_ptr prov + base_offset R T)).
  { rewrite (dynamic_cast_to_first_match candidate_list base_offset T R skipped rest)
      by assumption.
    unfold static_cast_class. rewrite decide_False by assumption.
    apply is_null_false in Hnn. now rewrite Hnn. }
  split; [|split].
  - rewrite as_raw_pointer_on_other by assumption. unfold can_cast_to. rewrite Hcast.
    apply is_null_false in Hnn'. now rewrite Hnn'.
  - reflexivity.
  - unfold wrap_pointer, pointer_modulus in *.
    change (2 ^ 64) with 18446744073709551616 in *.
    intros Heq. apply Hoff. clear Hnn' Hcast.
    Z.div_mod_to_equations. lia.
Qed.

End MarshallingFacts.

Section RetrievalFailures.

Variable type_name : cpp_type -> string.
Variable candidate_list : cpp_type -> option (list cpp_type).
Variable base_offset : cpp_type -> cpp_type -> Z.

(** X23. The failures of [as_raw_pointer<T>] are of three kinds and no
    other, each an invalid-argument fault: a null provider; a provider
    without the cast capability; a provider with the capability that is
    no [reference_handle<T>] and for which [can_cast_to<T>()] is false,
    reported with the names of the recorded type and of [T]. *)
Theorem as_raw_pointer_failures (T : cpp_type) (sharedPtr : option provider)
    (e : exception) :
  as_raw_pointer type_name candidate_list base_offset T sharedPtr = Throw e ->
  (sharedPtr = None
   /\ e = invalid_argument "Pointer is nullptr - not accepted by the API")
  \/ (exists prov : provider,
        sharedPtr = Some prov
        /\ (cast_ptr_provider_class ∉ class_of prov :: bases_of prov)
        /\ e = invalid_argument
                 "Opaque pointer wrapper is not a cast_ptr_provider - not accepted by the API")
  \/ (exists prov : provider,
        sharedPtr = Some prov
        /\ cast_ptr_provider_class ∈ class_of prov :: bases_of prov
        /\ class_of prov <> reference_handle_of T
        /\ can_cast_to candidate_list base_offset T prov = false
        /\ e = invalid_argument
                 ((("Cannot cast pointer to " +:+ type_name (wrapped_type_info prov))
                     +:+ " to a pointer to ") +:+ type_name (typeid T))).
Proof.
  destruct sharedPtr as [prov|]; [|intros [= <-]; now left].
  intros Hfail. right.
  destruct (decide (class_of prov = reference_handle_of T)) as [E|Hne].
  { rewrite as_raw_pointer_on_handle in Hfail by assumption. discriminate. }
  destruct (decide (cast_ptr_provider_class ∈ class_of prov :: bases_of prov)) as [Hcap|Hcap].
  - right. exists prov. rewrite as_raw_pointer_on_other in Hfail by assumption.
    destruct (can_cast_to candidate_list base_offset T prov); [discriminate|].
    injection Hfail as <-. repeat (split; [assumption || reflexivity|]). reflexivity.
  - left. exists prov. rewrite as_raw_pointer_without_capability in Hfail by assumption.
    injection Hfail as <-. repeat (split; [assumption || reflexivity|]). reflexivity.
Qed.

End RetrievalFailures.

(* ===================================================================== *)
(** * The registry invariant *)
(* ===================================================================== *)

Lemma registry_ok_initial : registry_ok initial_world.
Proof.
  split; simpl; intros k x Hk; rewrite lookup_empty in Hk; discriminate.
Qed.

(** The log of destructor runs plays no part in the invariant. *)
Lemma registry_ok_log (w : world) (D : list (cpp_type * ptr)) :
  registry_ok w -> registry_ok (World (blocks w) (handle_map w) D).
Proof. intros Hok. exact Hok. Qed.

(** A further address held by [k] handles keeps the invariant. *)
Lemma registry_ok_held (w0 : world) (b : positive) (p : ptr) (T : cpp_type) (k : Z) :
  registry_ok w0 ->
  blocks w0 !! b = None ->
  handle_map w0 !! p = None ->
  1 <= k ->
  registry_ok (held w0 b p T (k + 1) k).
Proof.
  intros [Hentries Hblocks] Hb Hp Hk. split; simpl.
  - intros q e Hq. apply lookup_insert_Some in Hq as [[<- <-]|[Hne Hq]]; simpl.
    + split; [reflexivity|]. split; [assumption|].
      exists T. now rewrite lookup_insert_eq.
    + destruct (Hentries q e Hq) as (Hst & Hsh & T' & Hblk).
      split; [assumption|]. split; [assumption|]. exists T'.
      rewrite lookup_insert_ne; [assumption|]. intros ->. congruence.
  - intros b' cb Hb'. apply lookup_insert_Some in Hb' as [[<- <-]|[Hne Hb']]; simpl.
    + eexists. rewrite lookup_insert_eq. split; reflexivity.
    + destruct (Hblocks b' cb Hb') as (e & He & Hctrl).
      exists e. split; [|assumption].
      rewrite lookup_insert_ne; [assumption|]. intros ->. congruence.
Qed.

(** A registered address can be set apart: the state is the rest, which
    keeps the invariant, extended with the block and the entry of that
    address. *)
Lemma registry_ok_split (w : world) (p : ptr) (e : registry_entry) :
  registry_ok w ->
  handle_map w !! p = Some e ->
  exists (w0 : world) (b : positive) (T : cpp_type),
    block e = SharedPtr b p
    /\ 1 <= share e
    /\ registry_ok w0
    /\ blocks w0 !! b = None
    /\ handle_map w0 !! p = None
    /\ w = held w0 b p T (share e + 1) (share e).
Proof.
  intros [Hentries Hblocks] Hp.
  destruct (Hentries p e Hp) as (Hst & Hsh & T & Hblk).
  destruct e as [[b q] s]. simpl in *. subst q.
  exists (World (delete b (blocks w)) (delete p (handle_map w)) (destroyed w)), b, T.
  split; [reflexivity|]. split; [assumption|]. split; [|split; [|split]]; simpl.
  - split; simpl.
    + intros q e Hq. apply lookup_delete_Some in Hq as [Hne Hq].
      destruct (Hentries q e Hq) as (Hst' & Hsh' & T' & Hblk').
      split; [assumption|]. split; [assumption|]. exists T'.
      rewrite lookup_delete_ne; [assumption|]. intros Heq.
      rewrite <- Heq, Hblk in Hblk'. congruence.
    + intros b' cb Hb'. apply lookup_delete_Some in Hb' as [Hne Hb'].
      destruct (Hblocks b' cb Hb') as (e & He & Hctrl).
      exists e. split; [|assumption].
      rewrite lookup_delete_ne; [assumption|]. intros Heq.
      rewrite <- Heq, Hp in He. injection He as <-. simpl in Hctrl. congruence.
  - apply lookup_delete_eq.
  - apply lookup_delete_eq.
  - destruct w as [B H D]. unfold held. simpl in *.
    now rewrite !insert_delete_id by assumption.
Qed.

(** The block that the registry returns for an address: a new one for an
    unknown address, the registered one otherwise.  In both cases the
    state is the part [w0] without the address, extended with the block
    and [j + 1] shares, where [j] shares were registered before. *)
Lemma find_shared_ptr_ok (T : cpp_type) (p : ptr) (w : world) :
  registry_ok w ->
  exists (w0 : world) (b : positive) (T0 : cpp_type) (j : Z),
    registry_ok w0
    /\ blocks w0 !! b = None
    /\ handle_map w0 !! p = None
    /\ ((j = 0 /\ w = w0 /\ T0 = T) \/ (1 <= j /\ w = held w0 b p T0 (j + 1) j))
    /\ find_shared_ptr T p w = (SharedPtr b p, held w0 b p T0 (j + 2) (j + 1)).
Proof.
  intros Hok. destruct (handle_map w !! p) as [e|] eqn:Hp.
  - destruct (registry_ok_split w p e Hok Hp) as (w0 & b & T0 & _ & Hsh & Hok0 & Hb & Hp0 & ->).
    exists w0, b, T0, (share e). repeat (split; [assumption|]).
    split; [right; split; [assumption | reflexivity]|].
    rewrite find_shared_ptr_again by lia.
    now replace (share e + 1 + 1) with (share e + 2) by lia.
  - exists w, (fresh (dom (blocks w))), T, 0.
    split; [assumption|]. split; [apply fresh_block_unused|]. split; [assumption|].
    split; [left; auto|]. now apply find_shared_ptr_first.
Qed.

(** The destruction of a live handle: the state is the part [w0] without
    the address, extended with the block and [j] shares; the last share
    gives back [w0] with one more destructor run, any other leaves
    [j - 1] shares. *)
Lemma reference_handle_destroy_ok (h : reference_handle) (w : world) :
  registry_ok w ->
  live h w ->
  exists (w0 : world) (b : positive) (T0 : cpp_type) (j : Z),
    1 <= j
    /\ registry_ok w0
    /\ blocks w0 !! b = None
    /\ handle_map w0 !! get_ptr h = None
    /\ sharedPtr h = SharedPtr b (get_ptr h)
    /\ w = held w0 b (get_ptr h) T0 (j + 1) j
    /\ reference_handle_destroy h w
       = if decide (j = 1)
         then World (blocks w0) (handle_map w0) (destroyed w0 ++ [(T0, get_ptr h)])
         else held w0 b (get_ptr h) T0 j (j - 1).
Proof.
  intros Hok (e & He & Hblock).
  destruct (registry_ok_split w _ e Hok He) as (w0 & b & T0 & Hsp & Hsh & Hok0 & Hb & Hp0 & Hw).
  exists w0, b, T0, (share e). rewrite Hblock in Hsp.
  repeat (split; [assumption|]). rewrite Hw at 1.
  destruct (decide (share e = 1)) as [E|Hne].
  - rewrite E. now apply destroy_last.
  - rewrite (destroy_not_last h w0 b (get_ptr h) T0 (share e + 1) (share e)) by (lia || assumption).
    now replace (share e + 1 - 1) with (share e) by lia.
Qed.

(** The count of a live handle is the share of its entry. *)
Lemma count_live (h : reference_handle) (w : world) :
  registry_ok w ->
  live h w ->
  exists e : registry_entry,
    handle_map w !! get_ptr h = Some e /\ count h w = share e /\ 1 <= count h w.
Proof.
  intros [Hentries _] (e & He & Hblock). exists e. split; [assumption|].
  destruct (Hentries _ e He) as (_ & Hsh & T & Hblk).
  unfold count, sp_use_count. rewrite <- Hblock, Hblk. simpl. lia.
Qed.

(** Handles on other addresses do not feel what happens to the block and
    the entry of [p]. *)
Lemma held_frame (w0 : world) (b : positive) (p : ptr) (T : cpp_type) (n s : Z)
    (g : reference_handle) :
  registry_ok w0 ->
  blocks w0 !! b = None ->
  get_ptr g <> p ->
  (live g (held w0 b p T n s) <-> live g w0)
  /\ (live g w0 -> count g (held w0 b p T n s) = count g w0).
Proof.
  intros [Hentries _] Hb Hne. split.
  - unfold live, held. simpl. now rewrite lookup_insert_ne by congruence.
  - intros (e & He & Hblock).
    destruct (Hentries _ e He) as (_ & _ & T' & Hblk).
    unfold count, sp_use_count, held. simpl.
    rewrite lookup_insert_ne; [reflexivity|]. intros ->.
    rewrite <- Hblock in Hb. congruence.
Qed.

(** A handle on [p] that is live while [p] is held has the block of the
    entry, and counts the shares. *)
Lemma held_live (w0 : world) (b : positive) (p : ptr) (T : cpp_type) (n s : Z)
    (g : reference_handle) :
  get_ptr g = p ->
  (live g (held w0 b p T n s) <-> sharedPtr g = SharedPtr b p)
  /\ (sharedPtr g = SharedPtr b p -> count g (held w0 b p T n s) = n - 1).
Proof.
  intros Hg. split.
  - unfold live, held. simpl. rewrite Hg, lookup_insert_eq. split.
    + intros (e & [= <-] & Hblock). now simpl in Hblock.
    + intros Hsp. eexists. split; [reflexivity | now simpl].
  - intros Hsp. unfold count, held. now rewrite Hsp, sp_use_count_block.
Qed.

(* ===================================================================== *)
(** * Handles in the states the library reaches *)
(* ===================================================================== *)

(** Every creation path goes through [find_shared_ptr]. *)
Lemma first_handle_inv (from_value : bool) (T : cpp_type) (p : ptr) (w w' : world)
    (h : reference_handle) :
  first_handle from_value T p w = Ok (h, w') ->
  exists sp : shared_ptr, find_shared_ptr T p w = (sp, w') /\ h = ReferenceHandle T sp.
Proof.
  unfold first_handle, reference_handle_from_value, reference_handle_from_ptr.
  destruct from_value; [|destruct (is_null p); [discriminate|]];
    destruct (find_shared_ptr T p w) as [sp w1]; intros [= <- <-]; eauto.
Qed.

Lemma second_handle_inv (path : creation_path) (g h : reference_handle) (w w' : world) :
  second_handle path g w = Ok (h, w') ->
  exists sp : shared_ptr,
    find_shared_ptr (element_type g) (get_ptr g) w = (sp, w')
    /\ h = ReferenceHandle (element_type g) sp.
Proof.
  unfold second_handle, new_reference_handle, reference_handle_copy,
    reference_handle_from_ptr, get_ptr.
  destruct path; [destruct (is_null _); [discriminate|] | | destruct (is_null _); [discriminate|]];
    destruct (find_shared_ptr _ _ w) as [sp w1]; intros [= <- <-]; eauto.
Qed.

Lemma second_handle_total (path : creation_path) (g : reference_handle) (w : world) :
  get_ptr g <> nullptr ->
  second_handle path g w
  = Ok (ReferenceHandle (element_type g) (fst (find_shared_ptr (element_type g) (get_ptr g) w)),
        snd (find_shared_ptr (element_type g) (get_ptr g) w)).
Proof.
  intros Hnn. apply is_null_false in Hnn.
  unfold second_handle, new_reference_handle, reference_handle_copy,
    reference_handle_from_ptr. fold (get_ptr g).
  destruct path; rewrite ?Hnn; now destruct (find_shared_ptr _ _ w).
Qed.

(** What a creation through [find_shared_ptr] does to the handles of the
    state it starts from. *)
Lemma find_shared_ptr_effects (T : cpp_type) (p : ptr) (w w' : world) (sp : shared_ptr) :
  registry_ok w ->
  find_shared_ptr T p w = (sp, w') ->
  registry_ok w'
  /\ stored sp = p
  /\ live (ReferenceHandle T sp) w'
  /\ destroyed w' = destroyed w
  /\ (handle_map w !! p = None -> count (ReferenceHandle T sp) w' = 1)
  /\ (forall g : reference_handle,
        live g w -> get_ptr g = p ->
        sharedPtr g = sp
        /\ live g w'
        /\ count g w' = count g w + 1
        /\ count (ReferenceHandle T sp) w' = count g w + 1)
  /\ (forall g : reference_handle,
        live g w -> get_ptr g <> p -> live g w' /\ count g w' = count g w).
Proof.
  intros Hok Hfind.
  destruct (find_shared_ptr_ok T p w Hok) as (w0 & b & T0 & j & Hok0 & Hb & Hp0 & Hbefore & Hafter).
  rewrite Hafter in Hfind. injection Hfind as <- <-.
  assert (Hj : 0 <= j) by (destruct Hbefore as [(-> & _)|(Hj & _)]; lia).
  assert (Hnew : count (ReferenceHandle T (SharedPtr b p)) (held w0 b p T0 (j + 2) (j + 1))
                 = j + 1).
  { rewrite (proj2 (held_live w0 b p T0 (j + 2) (j + 1) (ReferenceHandle T (SharedPtr b p))
                      eq_refl) eq_refl). lia. }
  split; [|split; [|split; [|split; [|split; [|split]]]]].
  - replace (j + 2) with (j + 1 + 1) by lia. apply registry_ok_held; (assumption || lia).
  - reflexivity.
  - now apply held_live.
  - destruct Hbefore as [(_ & -> & _)|(_ & ->)]; reflexivity.
  - intros Hnone. rewrite Hnew.
    destruct Hbefore as [(-> & _)|(Hj1 & ->)]; [reflexivity|].
    unfold held in Hnone. simpl in Hnone. rewrite lookup_insert_eq in Hnone. discriminate.
  - intros g Hlive Hg. rewrite Hnew.
    destruct Hbefore as [(_ & -> & _)|(Hj1 & ->)].
    { destruct Hlive as (e & He & _). rewrite Hg in He. congruence. }
    apply (held_live w0 b p T0 (j + 1) j g Hg) in Hlive as Hsp.
    split; [now rewrite Hsp|]. split; [now apply held_live|].
    rewrite !(proj2 (held_live w0 b p T0 _ _ g Hg) Hsp). lia.
  - intros g Hlive Hg.
    assert (Hlive0 : live g w0).
    { destruct Hbefore as [(_ & -> & _)|(_ & ->)]; [assumption|].
      now apply (held_frame w0 b p T0 (j + 1) j g Hok0 Hb Hg). }
    destruct (held_frame w0 b p T0 (j + 2) (j + 1) g Hok0 Hb Hg) as [Hl Hc].
    split; [now apply Hl|]. rewrite (Hc Hlive0).
    destruct Hbefore as [(_ & -> & _)|(_ & ->)]; [reflexivity|].
    symmetry. now apply (held_frame w0 b p T0 (j + 1) j g Hok0 Hb Hg).
Qed.

(** What the destruction of a live handle does. *)
Lemma reference_handle_destroy_effects (h : reference_handle) (w : world) :
  registry_ok w ->
  live h w ->
  registry_ok (reference_handle_destroy h w)
  /\ (count h w = 1 ->
        handle_map (reference_handle_destroy h w) !! get_ptr h = None
        /\ blocks (reference_handle_destroy h w) !! ctrl (sharedPtr h) = None
        /\ exists cb : control_block,
             blocks w !! ctrl (sharedPtr h) = Some cb
             /\ destroyed (reference_handle_destroy h w)
                = destroyed w ++ [(deleter cb, get_ptr h)])
  /\ (count h w <> 1 ->
        destroyed (reference_handle_destroy h w) = destroyed w
        /\ forall g : reference_handle,
             live g w -> get_ptr g = get_ptr h ->
             live g (reference_handle_destroy h w)
             /\ count g (reference_handle_destroy h w) = count g w - 1)
  /\ (forall g : reference_handle,
        live g w -> get_ptr g <> get_ptr h ->
        live g (reference_handle_destroy h w)
        /\ count g (reference_handle_destroy h w) = count g w).
Proof.
  intros Hok Hlive.
  destruct (reference_handle_destroy_ok h w Hok Hlive)
    as (w0 & b & T0 & j & Hj & Hok0 & Hb & Hp0 & Hsp & Hw & Hdestroy).
  rewrite Hdestroy.
  assert (Hcount : count h w = j).
  { rewrite Hw. rewrite (proj2 (held_live w0 b _ T0 (j + 1) j h eq_refl) Hsp). lia. }
  rewrite Hcount.
  split; [|split; [|split]].
  - destruct (decide (j = 1)).
    + now apply registry_ok_log.
    + replace j with (j - 1 + 1) at 1 by lia. apply registry_ok_held; (assumption || lia).
  - intros ->. rewrite decide_True by reflexivity. simpl.
    split; [assumption|]. rewrite Hsp. simpl. split; [assumption|].
    exists (ControlBlock (get_ptr h) T0 (1 + 1)). rewrite Hw. unfold held. simpl.
    now rewrite lookup_insert_eq.
  - intros Hne. rewrite decide_False by assumption.
    split; [now rewrite Hw|]. intros g Hg Hsame. rewrite Hw in Hg.
    apply (held_live w0 b _ T0 (j + 1) j g Hsame) in Hg as Hgsp.
    split; [now apply held_live|].
    rewrite Hw, !(proj2 (held_live w0 b _ T0 _ _ g Hsame) Hgsp). lia.
  - intros g Hg Hother. rewrite Hw in Hg.
    apply (held_frame w0 b _ T0 (j + 1) j g Hok0 Hb Hother) in Hg as Hg0.
    assert (Hbefore : count g w = count g w0).
    { rewrite Hw. now apply (held_frame w0 b _ T0 (j + 1) j g Hok0 Hb Hother). }
    rewrite Hbefore.
    destruct (decide (j = 1)).
    + split; [exact Hg0 | reflexivity].
    + destruct (held_frame w0 b _ T0 j (j - 1) g Hok0 Hb Hother) as [Hl Hc].
      split; [now apply Hl | now apply Hc].
Qed.

(** X13. The registry invariant holds before the library is used, and
    every constructor path and the destruction of every live handle keep
    it; a handle is live once constructed.  In a state with the invariant
    no two control blocks manage the same address. *)
Theorem registry_invariant_kept :
  registry_ok initial_world
  /\ forall w : world,
       registry_ok w ->
       (forall (from_value : bool) (T : cpp_type) (p : ptr) (h : reference_handle)
               (w' : world),
           first_handle from_value T p w = Ok (h, w') -> registry_ok w' /\ live h w')
       /\ (forall (path : creation_path) (g h : reference_handle) (w' : world),
             second_handle path g w = Ok (h, w') -> registry_ok w' /\ live h w')
       /\ (forall h : reference_handle,
             live h w -> registry_ok (reference_handle_destroy h w))
       /\ (forall (b1 b2 : positive) (cb1 cb2 : control_block),
             blocks w !! b1 = Some cb1 ->
             blocks w !! b2 = Some cb2 ->
             managed cb1 = managed cb2 ->
             b1 = b2).
Proof.
  split; [exact registry_ok_initial|]. intros w Hok. split; [|split; [|split]].
  - intros from_value T p h w' Hnew.
    destruct (first_handle_inv _ _ _ _ _ _ Hnew) as (sp & Hfind & ->).
    destruct (find_shared_ptr_effects T p w w' sp Hok Hfind) as (Hok' & _ & Hlive & _).
    split; assumption.
  - intros path g h w' Hnew.
    destruct (second_handle_inv _ _ _ _ _ Hnew) as (sp & Hfind & ->).
    destruct (find_shared_ptr_effects _ _ w w' sp Hok Hfind) as (Hok' & _ & Hlive & _).
    split; assumption.
  - intros h Hlive. now apply reference_handle_destroy_effects.
  - intros b1 b2 cb1 cb2 H1 H2 Hsame. destruct Hok as [_ Hblocks].
    destruct (Hblocks b1 cb1 H1) as (e1 & He1 & <-).
    destruct (Hblocks b2 cb2 H2) as (e2 & He2 & <-).
    rewrite Hsame in He1. congruence.
Qed.

(** X14. A handle constructed on [p], from a value stored at [p] or from
    the raw pointer [p], refers to [p] and wraps the type named; no
    destructor runs.  On an address unknown to the registry its count is
    1; on an address that live handles already share it joins their
    block, and its count and theirs are the former count plus one. *)
Theorem new_handle_counts (from_value : bool) (T : cpp_type) (p : ptr) (w w' : world)
    (h : reference_handle) :
  registry_ok w ->
  first_handle from_value T p w = Ok (h, w') ->
  get_ptr h = p
  /\ element_type h = T
  /\ destroyed w' = destroyed w
  /\ (handle_map w !! p = None -> count h w' = 1)
  /\ (forall g : reference_handle,
        live g w -> get_ptr g = p ->
        sharedPtr h = sharedPtr g
        /\ live g w'
        /\ count g w' = count g w + 1
        /\ count h w' = count g w + 1).
Proof.
  intros Hok Hnew.
  destruct (first_handle_inv _ _ _ _ _ _ Hnew) as (sp & Hfind & ->).
  destruct (find_shared_ptr_effects T p w w' sp Hok Hfind)
    as (_ & Hst & _ & Hlog & Hfresh & Hjoin & _).
  split; [exact Hst|]. split; [reflexivity|]. split; [exact Hlog|]. split; [exact Hfresh|].
  intros g Hg Hp. destruct (Hjoin g Hg Hp) as (Hsp & Hl & Hc & Hc').
  split; [now rewrite Hsp|]. split; [exact Hl|]. split; [exact Hc | exact Hc'].
Qed.

(** X15. From a live handle [g] that refers to an object, a further
    handle is always obtained, by adoption of [g.get_ptr()], by copy
    construction or by [new_reference_handle()] alike: it shares the
    block of [g] and wraps the same type, no destructor runs, and
    afterwards both report the former count of [g] plus one. *)
Theorem alias_of_live_handle (path : creation_path) (g : reference_handle) (w : world) :
  registry_ok w ->
  live g w ->
  get_ptr g <> nullptr ->
  exists (h : reference_handle) (w' : world),
    second_handle path g w = Ok (h, w')
    /\ sharedPtr h = sharedPtr g
    /\ element_type h = element_type g
    /\ destroyed w' = destroyed w
    /\ count h w' = count g w + 1
    /\ count g w' = count g w + 1.
Proof.
  intros Hok Hg Hnn. rewrite second_handle_total by assumption.
  destruct (find_shared_ptr (element_type g) (get_ptr g) w) as [sp w'] eqn:Hfind.
  destruct (find_shared_ptr_effects _ _ w w' sp Hok Hfind)
    as (_ & _ & _ & Hlog & _ & Hjoin & _).
  destruct (Hjoin g Hg eq_refl) as (Hsp & _ & Hc & Hc').
  eexists _, _. split; [reflexivity|]. simpl.
  split; [now rewrite Hsp|]. split; [reflexivity|]. split; [exact Hlog|].
  split; [exact Hc' | exact Hc].
Qed.

(** X16. The destruction of a live handle runs a destructor exactly when
    the handle reports the count 1: then the destructor bound to the
    block runs once on the address, and the entry and the block are
    gone.  With a higher count no destructor runs, and the handles that
    share the address stay live and report one less. *)
Theorem destroy_live_handle (h : reference_handle) (w : world) :
  registry_ok w ->
  live h w ->
  (count h w = 1 ->
     handle_map (reference_handle_destroy h w) !! get_ptr h = None
     /\ blocks (reference_handle_destroy h w) !! ctrl (sharedPtr h) = None
     /\ exists cb : control_block,
          blocks w !! ctrl (sharedPtr h) = Some cb
          /\ destroyed (reference_handle_destroy h w)
             = destroyed w ++ [(deleter cb, get_ptr h)])
  /\ (count h w <> 1 ->
        destroyed (reference_handle_destroy h w) = destroyed w
        /\ forall g : reference_handle,
             live g w -> get_ptr g = get_ptr h ->
             live g (reference_handle_destroy h w)
             /\ count g (reference_handle_destroy h w) = count g w - 1).
Proof.
  intros Hok Hlive.
  destruct (reference_handle_destroy_effects h w Hok Hlive) as (_ & Hlast & Hmore & _).
  split; assumption.
Qed.

(** X17. Handles on different addresses do not interfere: a handle that
    is live stays live and reports the same count when a handle is
    constructed on another address, by any path, and when a live handle
    on another address is destroyed. *)
Theorem other_addresses_untouched (g : reference_handle) (w : world) :
  registry_ok w ->
  live g w ->
  (forall (from_value : bool) (T : cpp_type) (p : ptr) (h : reference_handle) (w' : world),
      get_ptr g <> p ->
      first_handle from_value T p w = Ok (h, w') ->
      live g w' /\ count g w' = count g w)
  /\ (forall (path : creation_path) (g2 h : reference_handle) (w' : world),
        get_ptr g <> get_ptr g2 ->
        second_handle path g2 w = Ok (h, w') ->
        live g w' /\ count g w' = count g w)
  /\ (forall h : reference_handle,
        live h w ->
        get_ptr g <> get_ptr h ->
        live g (reference_handle_destroy h w)
        /\ count g (reference_handle_destroy h w) = count g w).
Proof.
  intros Hok Hg. split; [|split].
  - intros from_value T p h w' Hne Hnew.
    destruct (first_handle_inv _ _ _ _ _ _ Hnew) as (sp & Hfind & ->).
    now apply (find_shared_ptr_effects T p w w' sp Hok Hfind).
  - intros path g2 h w' Hne Hnew.
    destruct (second_handle_inv _ _ _ _ _ Hnew) as (sp & Hfind & ->).
    now apply (find_shared_ptr_effects _ _ w w' sp Hok Hfind).
  - intros h Hh Hne. now apply (reference_handle_destroy_effects h w Hok Hh).
Qed.

(** X18. Adopting, under a type [T'], an address that is registered
    already joins the registered block whatever [T'] is: the new handle
    wraps [T'] while the destructor bound to the block stays the one of
    the type that registered the address. *)
Theorem adoption_keeps_first_deleter (T' : cpp_type) (p : ptr) (w : world)
    (e : registry_entry) (cb : control_block) :
  registry_ok w ->
  p <> nullptr ->
  handle_map w !! p = Some e ->
  blocks w !! ctrl (block e) = Some cb ->
  exists (h : reference_handle) (w' : world) (cb' : control_block),
    reference_handle_from_ptr T' p w = Ok (h, w')
    /\ element_type h = T'
    /\ sharedPtr h = block e
    /\ blocks w' !! ctrl (block e) = Some cb'
    /\ deleter cb' = deleter cb
    /\ managed cb' = p.
Proof.
  intros Hok Hnn Hp Hcb.
  destruct (registry_ok_split w p e Hok Hp) as (w0 & b & T0 & Hsp & Hsh & _ & _ & _ & Hw).
  assert (Hnew : reference_handle_from_ptr T' p w
                 = Ok (ReferenceHandle T' (SharedPtr b p),
                       held w0 b p T0 (share e + 1 + 1) (share e + 1))).
  { unfold reference_handle_from_ptr. apply is_null_false in Hnn. rewrite Hnn.
    rewrite Hw at 1. now rewrite find_shared_ptr_again by lia. }
  rewrite Hnew. eexists _, _, _. split; [reflexivity|]. simpl.
  split; [reflexivity|]. split; [now rewrite Hsp|].
  rewrite Hsp. simpl. rewrite lookup_insert_eq. split; [reflexivity|]. simpl.
  rewrite Hw, Hsp in Hcb. unfold held in Hcb. simpl in Hcb.
  rewrite lookup_insert_eq in Hcb. injection Hcb as <-. split; reflexivity.
Qed.

(** X19. [create_shared_ptr] returns the only instance of a new group
    that stores [p]: its use count is 1, nothing else changes, and
    destroying that instance runs the destructor of [T] on [p] once and
    leaves the blocks as they were. *)
Theorem create_shared_ptr_sole_owner (T : cpp_type) (p : ptr) (w : world) :
  exists (sp : shared_ptr) (w1 : world),
    create_shared_ptr T p w = (sp, w1)
    /\ stored sp = p
    /\ blocks w !! ctrl sp = None
    /\ sp_use_count sp w1 = 1
    /\ handle_map w1 = handle_map w
    /\ destroyed w1 = destroyed w
    /\ sp_drop sp w1 = World (blocks w) (handle_map w) (destroyed w ++ [(T, p)]).
Proof.
  unfold create_shared_ptr, sp_new, set_blocks.
  rewrite sp_copy_block, sp_drop_block_shared by lia.
  eexists _, _. split; [reflexivity|]. simpl.
  split; [reflexivity|]. split; [apply fresh_block_unused|].
  split; [apply sp_use_count_block|]. split; [reflexivity|]. split; [reflexivity|].
  apply sp_drop_block_last; [lia | apply fresh_block_unused].
Qed.

(** X20. Copy construction and [new_reference_handle()] are the same
    operation on a handle that refers to an object: same handle, same
    state.  They differ only on a null pointer, which
    [new_reference_handle()] refuses. *)
Theorem new_reference_handle_is_copy (h : reference_handle) (w : world) :
  (get_ptr h <> nullptr -> new_reference_handle h w = Ok (reference_handle_copy h w))
  /\ (get_ptr h = nullptr ->
        new_reference_handle h w = Throw (invalid_argument "Pointer must not be nullptr")).
Proof.
  unfold new_reference_handle, reference_handle_from_ptr, reference_handle_copy.
  fold (get_ptr h). split.
  - intros Hnn. apply is_null_false in Hnn. rewrite Hnn.
    now destruct (find_shared_ptr (element_type h) (get_ptr h) w).
  - intros ->. reflexivity.
Qed.

Section HandleRoundTrip.

Variable type_name : cpp_type -> string.
Variable candidate_list : cpp_type -> option (list cpp_type).
Variable base_offset : cpp_type -> cpp_type -> Z.

(** X21. Round trip through a handle: after [reference_handle<T>(p)]
    succeeds, [checked_reference_handle<T>] accepts the new handle, and
    [as_raw_pointer<T>] and [get_void_ptr()] give back [p], which is not
    null. *)
Theorem adopt_then_retrieve (T : cpp_type) (p : ptr) (w w' : world) (h : reference_handle) :
  registry_ok w ->
  reference_handle_from_ptr T p w = Ok (h, w') ->
  p <> nullptr
  /\ checked_reference_handle type_name T (Some (handle_object h)) = Ok (handle_object h)
  /\ as_raw_pointer type_name candidate_list base_offset T (Some (handle_object h)) = Ok p
  /\ get_void_ptr (handle_object h) = p.
Proof.
  intros Hok Hnew.
  assert (Hnn : p <> nullptr).
  { unfold reference_handle_from_ptr in Hnew.
    destruct (is_null p) eqn:Hnull; [discriminate | now apply is_null_false]. }
  destruct (first_handle_inv false T p w w' h Hnew) as (sp & Hfind & ->).
  destruct (find_shared_ptr_effects T p w w' sp Hok Hfind) as (_ & Hst & _).
  split; [exact Hnn|]. split; [|split].
  - unfold checked_reference_handle, checked_downcast.
    rewrite dynamic_cast_Some; [reflexivity | simpl; left].
  - pose proof (dynamic_cast_handle_exact (ReferenceHandle T sp)) as Hcast.
    simpl in Hcast. unfold as_raw_pointer. rewrite Hcast. now rewrite <- Hst.
  - exact Hst.
Qed.

End HandleRoundTrip.

(* ===================================================================== *)
(** * Any number of handles on one object *)
(* ===================================================================== *)

Section ManyHandles.

Variables (w : world) (b : positive) (p : ptr) (T : cpp_type).
Hypothesis Hnn : p <> nullptr.
Hypothesis Hb : blocks w !! b = None.
Hypothesis Hp : handle_map w !! p = None.

Let h : reference_handle := ReferenceHandle T (SharedPtr b p).

(** With [k] handles alive, one more by any path. *)
Lemma second_handle_held (path : creation_path) (k : nat) :
  second_handle path h (held w b p T (Z.of_nat k + 1) (Z.of_nat k))
  = Ok (h, held w b p T (Z.of_nat (S k) + 1) (Z.of_nat (S k))).
Proof using Hnn.
  rewrite second_handle_total by exact Hnn. simpl.
  rewrite find_shared_ptr_again by lia. simpl.
  now replace (Z.of_nat (S k)) with (Z.of_nat k + 1) by lia.
Qed.

Lemma more_handles_held (paths : list creation_path) (k : nat) :
  more_handles paths h (held w b p T (Z.of_nat k + 1) (Z.of_nat k))
  = Ok (replicate (length paths) h,
        held w b p T (Z.of_nat (k + length paths) + 1) (Z.of_nat (k + length paths))).
Proof using Hnn.
  revert k. induction paths as [|path paths IH]; intros k; simpl.
  - now rewrite Nat.add_0_r.
  - rewrite second_handle_held, IH.
    now replace (S k + length paths)%nat with (k + S (length paths))%nat by lia.
Qed.

(** With [k] handles alive, destroying [m] of them, fewer than [k],
    leaves [k - m] handles and runs no destructor. *)
Lemma destroy_handles_held (m k : nat) :
  (m < k)%nat ->
  destroy_handles (replicate m h) (held w b p T (Z.of_nat k + 1) (Z.of_nat k))
  = held w b p T (Z.of_nat (k - m) + 1) (Z.of_nat (k - m)).
Proof.
  revert k. induction m as [|m IH]; intros k Hm; simpl.
  - now rewrite Nat.sub_0_r.
  - unfold destroy_handles in *. simpl.
    rewrite (destroy_not_last h w b p T (Z.of_nat k + 1) (Z.of_nat k)) by (reflexivity || lia).
    replace (Z.of_nat k + 1 - 1) with (Z.of_nat (k - 1) + 1) by lia.
    replace (Z.of_nat k - 1) with (Z.of_nat (k - 1)) by lia.
    rewrite IH by lia. now replace (k - 1 - m)%nat with (k - S m)%nat by lia.
Qed.

(** Destroying all [k] handles runs the destructor once, at the end. *)
Lemma destroy_handles_all (k : nat) :
  (0 < k)%nat ->
  destroy_handles (replicate k h) (held w b p T (Z.of_nat k + 1) (Z.of_nat k))
  = World (blocks w) (handle_map w) (destroyed w ++ [(T, p)]).
Proof using Hb Hp.
  intros Hk. destruct k as [|k]; [lia|].
  rewrite replicate_S_end. unfold destroy_handles. rewrite foldl_app. simpl.
  fold (destroy_handles (replicate k h) (held w b p T (Z.of_nat (S k) + 1) (Z.of_nat (S k)))).
  rewrite destroy_handles_held by lia.
  replace (S k - k)%nat with 1%nat by lia.
  now apply destroy_last.
Qed.

End ManyHandles.

(** X22. Any number of handles: on a non-null address unknown to the
    registry a first handle is constructed and then one more for every
    path of a list.  Every handle then reports the number of handles.
    When they are destroyed in any order, no destructor runs and the
    entry stays as long as one handle is left; the destruction of the
    last one runs the destructor of [T] on the address, once, and gives
    back the blocks and the registry of the beginning. *)
Theorem many_handles_destroyed_once (from_value : bool) (paths : list creation_path)
    (T : cpp_type) (p : ptr) (w : world) :
  p <> nullptr ->
  handle_map w !! p = None ->
  exists (h1 : reference_handle) (hs : list reference_handle) (w1 w2 : world),
    first_handle from_value T p w = Ok (h1, w1)
    /\ more_handles paths h1 w1 = Ok (hs, w2)
    /\ length hs = length paths
    /\ Forall (fun h => count h w2 = Z.of_nat (length paths) + 1) (h1 :: hs)
    /\ forall order : list reference_handle,
         order ≡ₚ h1 :: hs ->
         (forall n : nat,
             (n <= length paths)%nat ->
             destroyed (destroy_handles (take n order) w2) = destroyed w
             /\ is_Some (handle_map (destroy_handles (take n order) w2) !! p))
         /\ destroy_handles order w2
            = World (blocks w) (handle_map w) (destroyed w ++ [(T, p)]).
Proof.
  intros Hnn Hp.
  set (b := fresh (dom (blocks w))).
  set (h := ReferenceHandle T (SharedPtr b p)).
  pose proof (fresh_block_unused w) as Hb. fold b in Hb.
  pose proof (more_handles_held w b p T Hnn paths 1) as Hmore. simpl in Hmore.
  exists h, (replicate (length paths) h), (held w b p T 2 1),
    (held w b p T (Z.of_nat (S (length paths)) + 1) (Z.of_nat (S (length paths)))).
  split; [now apply first_handle_creates|]. split; [exact Hmore|].
  split; [apply length_replicate|]. split.
  - change (h :: replicate (length paths) h) with (replicate (S (length paths)) h).
    apply Forall_replicate. unfold h. rewrite count_of_live_handles by reflexivity. lia.
  - intros order Hperm.
    change (h :: replicate (length paths) h) with (replicate (S (length paths)) h) in Hperm.
    symmetry in Hperm. apply replicate_Permutation in Hperm. subst order.
    unfold h. split.
    + intros n Hn. rewrite take_replicate, Nat.min_l by lia.
      rewrite (destroy_handles_held w b p T n (S (length paths))) by lia.
      simpl. split; [reflexivity|]. rewrite lookup_insert_eq. eauto.
    + apply destroy_handles_all; (assumption || lia).
Qed.

(* ===================================================================== *)
(** * The further statements on the animals program *)
(* ===================================================================== *)

Lemma one_dog_world_ok : registry_ok one_dog_world.
Proof.
  apply (registry_ok_held initial_world 1 4096 dog 1);
    [exact registry_ok_initial | reflexivity | reflexivity | lia].
Qed.

Lemma a_dog_handle_live : live a_dog_handle one_dog_world.
Proof. eexists. split; [vm_compute; reflexivity | reflexivity]. Qed.

Lemma one_dog_world_reached :
  reference_handle_from_ptr dog 4096 initial_world = Ok (a_dog_handle, one_dog_world).
Proof. vm_compute. reflexivity. Qed.

Lemma dynamic_cast_to_own_type_witness :
  wrapped_type_info an_animal_provider = typeid animal
  /\ dynamic_cast_to zoo_candidate_list zoo_base_offset animal an_animal_provider
     = get_void_ptr an_animal_provider.
Proof.
  split; [reflexivity|].
  apply (dynamic_cast_to_own_type zoo_candidate_list zoo_base_offset animal
           an_animal_provider eq_refl).
Defined.

Lemma can_cast_to_only_declared_witness :
  can_cast_to zoo_candidate_list zoo_base_offset animal (handle_object a_cat_handle) = true
  /\ conversion_declared zoo_candidate_list animal
       (wrapped_type_info (handle_object a_cat_handle)).
Proof.
  split; [reflexivity|].
  apply (can_cast_to_only_declared zoo_candidate_list zoo_base_offset animal
           (handle_object a_cat_handle) eq_refl).
Defined.

Lemma null_pointer_never_casts_witness :
  get_void_ptr an_empty_provider = nullptr
  /\ dynamic_cast_to zoo_candidate_list zoo_base_offset dog an_empty_provider = nullptr
  /\ can_cast_to zoo_candidate_list zoo_base_offset dog an_empty_provider = false.
Proof.
  split; [reflexivity|].
  apply (null_pointer_never_casts zoo_candidate_list zoo_base_offset dog
           an_empty_provider eq_refl).
Defined.

Lemma cat_handle_has_capability :
  cast_ptr_provider_class
    ∈ class_of (handle_object a_cat_handle) :: bases_of (handle_object a_cat_handle).
Proof. simpl. right. left. Qed.

Lemma as_raw_pointer_succeeds_iff_witness :
  cast_ptr_provider_class
    ∈ class_of (handle_object a_cat_handle) :: bases_of (handle_object a_cat_handle)
  /\ ((exists r : ptr,
         as_raw_pointer zoo_type_name zoo_candidate_list zoo_base_offset animal
           (Some (handle_object a_cat_handle)) = Ok r)
      <-> class_of (handle_object a_cat_handle) = reference_handle_of animal
          \/ can_cast_to zoo_candidate_list zoo_base_offset animal
               (handle_object a_cat_handle) = true).
Proof.
  split; [exact cat_handle_has_capability|].
  apply (as_raw_pointer_succeeds_iff zoo_type_name zoo_candidate_list zoo_base_offset
           animal (handle_object a_cat_handle) cat_handle_has_capability).
Defined.

Lemma as_raw_pointer_sound_witness :
  as_raw_pointer zoo_type_name zoo_candidate_list zoo_base_offset animal
    (Some (handle_object a_cat_handle)) = Ok 8208
  /\ exists prov : provider,
       Some (handle_object a_cat_handle) = Some prov
       /\ cast_ptr_provider_class ∈ class_of prov :: bases_of prov
       /\ conversion_declared zoo_candidate_list animal (wrapped_type_info prov)
       /\ (get_void_ptr prov <> nullptr -> 8208 <> nullptr).
Proof.
  split; [reflexivity|].
  apply (as_raw_pointer_sound zoo_type_name zoo_candidate_list zoo_base_offset animal
           (Some (handle_object a_cat_handle)) 8208 eq_refl).
Defined.

Lemma as_raw_pointer_default_same_address_witness :
  zoo_candidate_list dog = None
  /\ as_raw_pointer zoo_type_name zoo_candidate_list zoo_base_offset dog
       (Some (handle_object a_dog_handle)) = Ok 4096
  /\ 4096 = get_void_ptr (handle_object a_dog_handle)
  /\ wrapped_type_info (handle_object a_dog_handle) = typeid dog.
Proof.
  split; [reflexivity|]. split; [reflexivity|].
  apply (as_raw_pointer_default_same_address zoo_type_name zoo_candidate_list
           zoo_base_offset dog (handle_object a_dog_handle) 4096 eq_refl eq_refl).
Defined.

Lemma cat_skips_dog :
  Forall (fun S => wrapped_type_info (handle_object a_cat_handle) <> typeid S) [dog].
Proof. constructor; [discriminate | constructor]. Qed.

Lemma as_raw_pointer_through_candidate_witness :
  zoo_candidate_list animal = Some ([dog] ++ cat :: [])
  /\ wrapped_type_info (handle_object a_cat_handle) = typeid cat
  /\ Forall (fun S => wrapped_type_info (handle_object a_cat_handle) <> typeid S) [dog]
  /\ cast_ptr_provider_class
       ∈ class_of (handle_object a_cat_handle) :: bases_of (handle_object a_cat_handle)
  /\ static_cast_class zoo_base_offset cat animal (get_void_ptr (handle_object a_cat_handle))
     <> nullptr
  /\ as_raw_pointer zoo_type_name zoo_candidate_list zoo_base_offset animal
       (Some (handle_object a_cat_handle))
     = Ok (static_cast_class zoo_base_offset cat animal
             (get_void_ptr (handle_object a_cat_handle))).
Proof.
  assert (Hnn : static_cast_class zoo_base_offset cat animal
                  (get_void_ptr (handle_object a_cat_handle)) <> nullptr) by discriminate.
  split; [reflexivity|]. split; [reflexivity|]. split; [exact cat_skips_dog|].
  split; [exact cat_handle_has_capability|]. split; [exact Hnn|].
  apply (as_raw_pointer_through_candidate zoo_type_name zoo_candidate_list zoo_base_offset
           animal cat [dog] [] (handle_object a_cat_handle) eq_refl eq_refl cat_skips_dog
           cat_handle_has_capability Hnn).
Defined.

Lemma checked_reference_handle_then_raw_pointer_witness :
  checked_reference_handle zoo_type_name dog (Some (handle_object a_dog_handle))
  = Ok (handle_object a_dog_handle)
  /\ Some (handle_object a_dog_handle) = Some (handle_object a_dog_handle)
  /\ class_of (handle_object a_dog_handle) = reference_handle_of dog
  /\ wrapped_type_info (handle_object a_dog_handle) = typeid dog
  /\ as_raw_pointer zoo_type_name zoo_candidate_list zoo_base_offset dog
       (Some (handle_object a_dog_handle))
     = Ok (get_void_ptr (handle_object a_dog_handle)).
Proof.
  split; [reflexivity|].
  apply (checked_reference_handle_then_raw_pointer zoo_type_name zoo_candidate_list
           zoo_base_offset dog (Some (handle_object a_dog_handle))
           (handle_object a_dog_handle) eq_refl).
Defined.

Lemma dogs_all_retrievable :
  Forall (fun prov => exists r : ptr,
            as_raw_pointer zoo_type_name zoo_candidate_list zoo_base_offset dog (Some prov)
            = Ok r)
         [handle_object a_dog_handle; cast_object 7 dog 12288].
Proof.
  constructor; [exists 4096; reflexivity|].
  constructor; [exists 12288; reflexivity | constructor].
Qed.

Lemma as_raw_pointers_agrees_with_checked_witness :
  zoo_candidate_list dog = None
  /\ Forall (fun prov => exists r : ptr,
               as_raw_pointer zoo_type_name zoo_candidate_list zoo_base_offset dog
                 (Some prov) = Ok r)
            [handle_object a_dog_handle; cast_object 7 dog 12288]
  /\ exists result : list ptr,
       as_raw_pointers dog (Some <$> [handle_object a_dog_handle; cast_object 7 dog 12288])
         (Z.of_nat (length [handle_object a_dog_handle; cast_object 7 dog 12288]))
       = Some (Ok result)
       /\ Forall2 (fun prov r =>
                     as_raw_pointer zoo_type_name zoo_candidate_list zoo_base_offset dog
                       (Some prov) = Ok r)
                  [handle_object a_dog_handle; cast_object 7 dog 12288] result.
Proof.
  split; [reflexivity|]. split; [exact dogs_all_retrievable|].
  apply (as_raw_pointers_agrees_with_checked zoo_type_name zoo_candidate_list
           zoo_base_offset dog [handle_object a_dog_handle; cast_object 7 dog 12288]
           eq_refl dogs_all_retrievable).
Defined.

Lemma as_raw_pointers_ignores_displacement_witness :
  zoo_candidate_list animal = Some ([dog] ++ cat :: [])
  /\ wrapped_type_info (handle_object a_cat_handle) = typeid cat
  /\ Forall (fun S => wrapped_type_info (handle_object a_cat_handle) <> typeid S) [dog]
  /\ cast_ptr_provider_class
       ∈ class_of (handle_object a_cat_handle) :: bases_of (handle_object a_cat_handle)
  /\ cat <> animal
  /\ zoo_base_offset cat animal mod pointer_modulus <> 0
  /\ 0 < get_void_ptr (handle_object a_cat_handle) < pointer_modulus
  /\ wrap_pointer (get_void_ptr (handle_object a_cat_handle) + zoo_base_offset cat animal)
     <> nullptr
  /\ as_raw_pointer zoo_type_name zoo_candidate_list zoo_base_offset animal
       (Some (handle_object a_cat_handle))
     = Ok (wrap_pointer
             (get_void_ptr (handle_object a_cat_handle) + zoo_base_offset cat animal))
  /\ as_raw_pointers animal [Some (handle_object a_cat_handle)] 1
     = Some (Ok [get_void_ptr (handle_object a_cat_handle)])
  /\ wrap_pointer (get_void_ptr (handle_object a_cat_handle) + zoo_base_offset cat animal)
     <> get_void_ptr (handle_object a_cat_handle).
Proof.
  assert (H1 : cat <> animal) by discriminate.
  assert (H2 : zoo_base_offset cat animal mod pointer_modulus <> 0)
    by (vm_compute; discriminate).
  assert (H3 : 0 < get_void_ptr (handle_object a_cat_handle) < pointer_modulus)
    by (vm_compute; split; reflexivity).
  assert (H4 : wrap_pointer
                 (get_void_ptr (handle_object a_cat_handle) + zoo_base_offset cat animal)
               <> nullptr) by (vm_compute; discriminate).
  split; [reflexivity|]. split; [reflexivity|]. split; [exact cat_skips_dog|].
  split; [exact cat_handle_has_capability|].
  split; [exact H1|]. split; [exact H2|]. split; [exact H3|]. split; [exact H4|].
  apply (as_raw_pointers_ignores_displacement zoo_type_name zoo_candidate_list
           zoo_base_offset animal cat [dog] [] (handle_object a_cat_handle) eq_refl eq_refl
           cat_skips_dog cat_handle_has_capability H1 H2 H3 H4).
Defined.

Lemma second_dog_handle :
  first_handle false dog 4096 one_dog_world
  = Ok (a_dog_handle, held initial_world 1 4096 dog 3 2).
Proof. vm_compute. reflexivity. Qed.

Lemma new_handle_counts_witness :
  registry_ok one_dog_world
  /\ first_handle false dog 4096 one_dog_world
     = Ok (a_dog_handle, held initial_world 1 4096 dog 3 2)
  /\ get_ptr a_dog_handle = 4096
  /\ element_type a_dog_handle = dog
  /\ destroyed (held initial_world 1 4096 dog 3 2) = destroyed one_dog_world
  /\ (handle_map one_dog_world !! 4096 = None ->
        count a_dog_handle (held initial_world 1 4096 dog 3 2) = 1)
  /\ (forall g : reference_handle,
        live g one_dog_world -> get_ptr g = 4096 ->
        sharedPtr a_dog_handle = sharedPtr g
        /\ live g (held initial_world 1 4096 dog 3 2)
        /\ count g (held initial_world 1 4096 dog 3 2) = count g one_dog_world + 1
        /\ count a_dog_handle (held initial_world 1 4096 dog 3 2)
           = count g one_dog_world + 1).
Proof.
  split; [exact one_dog_world_ok|]. split; [exact second_dog_handle|].
  apply (new_handle_counts false dog 4096 one_dog_world _ a_dog_handle one_dog_world_ok
           second_dog_handle).
Defined.

Lemma alias_of_live_handle_witness :
  registry_ok one_dog_world
  /\ live a_dog_handle one_dog_world
  /\ get_ptr a_dog_handle <> nullptr
  /\ exists (h : reference_handle) (w' : world),
       second_handle copy_handle a_dog_handle one_dog_world = Ok (h, w')
       /\ sharedPtr h = sharedPtr a_dog_handle
       /\ element_type h = element_type a_dog_handle
       /\ destroyed w' = destroyed one_dog_world
       /\ count h w' = count a_dog_handle one_dog_world + 1
       /\ count a_dog_handle w' = count a_dog_handle one_dog_world + 1.
Proof.
  assert (Hnn : get_ptr a_dog_handle <> nullptr) by discriminate.
  split; [exact one_dog_world_ok|]. split; [exact a_dog_handle_live|]. split; [exact Hnn|].
  apply (alias_of_live_handle copy_handle a_dog_handle one_dog_world one_dog_world_ok
           a_dog_handle_live Hnn).
Defined.

Lemma destroy_live_handle_witness :
  registry_ok one_dog_world
  /\ live a_dog_handle one_dog_world
  /\ count a_dog_handle one_dog_world = 1
  /\ handle_map (reference_handle_destroy a_dog_handle one_dog_world)
       !! get_ptr a_dog_handle = None
  /\ blocks (reference_handle_destroy a_dog_handle one_dog_world)
       !! ctrl (sharedPtr a_dog_handle) = None
  /\ exists cb : control_block,
       blocks one_dog_world !! ctrl (sharedPtr a_dog_handle) = Some cb
       /\ destroyed (reference_handle_destroy a_dog_handle one_dog_world)
          = destroyed one_dog_world ++ [(deleter cb, get_ptr a_dog_handle)].
Proof.
  assert (Hone : count a_dog_handle one_dog_world = 1) by (vm_compute; reflexivity).
  split; [exact one_dog_world_ok|]. split; [exact a_dog_handle_live|]. split; [exact Hone|].
  exact (proj1 (destroy_live_handle a_dog_handle one_dog_world one_dog_world_ok
                  a_dog_handle_live) Hone).
Defined.

Lemma other_addresses_untouched_witness :
  registry_ok one_dog_world
  /\ live a_dog_handle one_dog_world
  /\ get_ptr a_dog_handle <> 8192
  /\ first_handle false cat 8192 one_dog_world
     = Ok (a_cat_handle, held one_dog_world 2 8192 cat 2 1)
  /\ live a_dog_handle (held one_dog_world 2 8192 cat 2 1)
  /\ count a_dog_handle (held one_dog_world 2 8192 cat 2 1)
     = count a_dog_handle one_dog_world.
Proof.
  assert (Hne : get_ptr a_dog_handle <> 8192) by discriminate.
  assert (Hcat : first_handle false cat 8192 one_dog_world
                 = Ok (a_cat_handle, held one_dog_world 2 8192 cat 2 1))
    by (vm_compute; reflexivity).
  split; [exact one_dog_world_ok|]. split; [exact a_dog_handle_live|]. split; [exact Hne|].
  split; [exact Hcat|].
  exact (proj1 (other_addresses_untouched a_dog_handle one_dog_world one_dog_world_ok
                  a_dog_handle_live) false cat 8192 a_cat_handle _ Hne Hcat).
Defined.

Lemma adoption_keeps_first_deleter_witness :
  registry_ok one_dog_world
  /\ 4096 <> nullptr
  /\ handle_map one_dog_world !! 4096 = Some (RegistryEntry (SharedPtr 1 4096) 1)
  /\ blocks one_dog_world !! ctrl (block (RegistryEntry (SharedPtr 1 4096) 1))
     = Some (ControlBlock 4096 dog 2)
  /\ exists (h : reference_handle) (w' : world) (cb' : control_block),
       reference_handle_from_ptr cat 4096 one_dog_world = Ok (h, w')
       /\ element_type h = cat
       /\ sharedPtr h = block (RegistryEntry (SharedPtr 1 4096) 1)
       /\ blocks w' !! ctrl (block (RegistryEntry (SharedPtr 1 4096) 1)) = Some cb'
       /\ deleter cb' = deleter (ControlBlock 4096 dog 2)
       /\ managed cb' = 4096.
Proof.
  assert (Hnn : 4096 <> nullptr) by discriminate.
  assert (Hentry : handle_map one_dog_world !! 4096
                   = Some (RegistryEntry (SharedPtr 1 4096) 1)) by (vm_compute; reflexivity).
  assert (Hblock : blocks one_dog_world !! ctrl (block (RegistryEntry (SharedPtr 1 4096) 1))
                   = Some (ControlBlock 4096 dog 2)) by (vm_compute; reflexivity).
  split; [exact one_dog_world_ok|]. split; [exact Hnn|]. split; [exact Hentry|].
  split; [exact Hblock|].
  apply (adoption_keeps_first_deleter cat 4096 one_dog_world _ _ one_dog_world_ok Hnn
           Hentry Hblock).
Defined.

Lemma adopt_then_retrieve_witness :
  registry_ok initial_world
  /\ reference_handle_from_ptr dog 4096 initial_world = Ok (a_dog_handle, one_dog_world)
  /\ 4096 <> nullptr
  /\ checked_reference_handle zoo_type_name dog (Some (handle_object a_dog_handle))
     = Ok (handle_object a_dog_handle)
  /\ as_raw_pointer zoo_type_name zoo_candidate_list zoo_base_offset dog
       (Some (handle_object a_dog_handle)) = Ok 4096
  /\ get_void_ptr (handle_object a_dog_handle) = 4096.
Proof.
  split; [exact registry_ok_initial|]. split; [exact one_dog_world_reached|].
  apply (adopt_then_retrieve zoo_type_name zoo_candidate_list zoo_base_offset dog 4096
           initial_world one_dog_world a_dog_handle registry_ok_initial
           one_dog_world_reached).
Defined.

Lemma as_raw_pointer_failures_witness :
  as_raw_pointer zoo_type_name zoo_candidate_list zoo_base_offset cat
    (Some (opaque_object 9 cat 12288))
  = Throw (invalid_argument
      "Opaque pointer wrapper is not a cast_ptr_provider - not accepted by the API")
  /\ ((Some (opaque_object 9 cat 12288) = None
       /\ invalid_argument
            "Opaque pointer wrapper is not a cast_ptr_provider - not accepted by the API"
          = invalid_argument "Pointer is nullptr - not accepted by the API")
      \/ (exists prov : provider,
            Some (opaque_object 9 cat 12288) = Some prov
            /\ (cast_ptr_provider_class ∉ class_of prov :: bases_of prov)
            /\ invalid_argument
                 "Opaque pointer wrapper is not a cast_ptr_provider - not accepted by the API"
               = invalid_argument
                   "Opaque pointer wrapper is not a cast_ptr_provider - not accepted by the API")
      \/ (exists prov : provider,
            Some (opaque_object 9 cat 12288) = Some prov
            /\ cast_ptr_provider_class ∈ class_of prov :: bases_of prov
            /\ class_of prov <> reference_handle_of cat
            /\ can_cast_to zoo_candidate_list zoo_base_offset cat prov = false
            /\ invalid_argument
                 "Opaque pointer wrapper is not a cast_ptr_provider - not accepted by the API"
               = invalid_argument
                   ((("Cannot cast pointer to " +:+ zoo_type_name (wrapped_type_info prov))
                       +:+ " to a pointer to ") +:+ zoo_type_name (typeid cat)))).
Proof.
  split; [reflexivity|].
  apply (as_raw_pointer_failures zoo_type_name zoo_candidate_list zoo_base_offset cat
           (Some (opaque_object 9 cat 12288)) _ eq_refl).
Defined.

Lemma many_handles_destroyed_once_witness :
  4096 <> nullptr
  /\ handle_map initial_world !! 4096 = None
  /\ exists (h1 : reference_handle) (hs : list reference_handle) (w1 w2 : world),
       first_handle true dog 4096 initial_world = Ok (h1, w1)
       /\ more_handles [copy_handle; alias_handle; adopt_pointer] h1 w1 = Ok (hs, w2)
       /\ length hs = length [copy_handle; alias_handle; adopt_pointer]
       /\ Forall (fun h => count h w2
                           = Z.of_nat (length [copy_handle; alias_handle; adopt_pointer]) + 1)
                 (h1 :: hs)
       /\ forall order : list reference_handle,
            order ≡ₚ h1 :: hs ->
            (forall n : nat,
                (n <= length [copy_handle; alias_handle; adopt_pointer])%nat ->
                destroyed (destroy_handles (take n order) w2) = destroyed initial_world
                /\ is_Some (handle_map (destroy_handles (take n order) w2) !! 4096))
            /\ destroy_handles order w2
               = World (blocks initial_world) (handle_map initial_world)
                   (destroyed initial_world ++ [(dog, 4096)]).
Proof.
  assert (Hnn : 4096 <> nullptr) by discriminate.
  split; [exact Hnn|]. split; [reflexivity|].
  apply (many_handles_destroyed_once true [copy_handle; alias_handle; adopt_pointer]
           dog 4096 initial_world Hnn eq_refl).
Defined.
